(** * py-log-analyzer: coordinator and worker, embedded and verified

    A shallow embedding of [coordinator.py] (worker registry, chunk planner,
    round-robin dispatch loop, aggregation), of [worker.py] (line parser and
    request handler) and of [Analyzer.py], followed by the properties of the
    specification.

    Conventions.
    - Python integers are unbounded: they are [Z].
    - Python floats are IEEE 754 binary64 numbers: they are [spec_float] with
      a 53-bit mantissa, and every float operation rounds to nearest, ties
      to even.  A Python number is an integer or a float; mixed arithmetic
      converts the integer, which raises OverflowError when it is too large.
    - Text is a list of code points.  Which code points beyond ASCII are
      white space or decimal digits is a parameter (the Unicode database).
    - A call either returns, raises a Python exception (identified by the
      name of its class) or, for the [while] loop, runs out of fuel. *)

From Stdlib Require Import Ascii String.
From Stdlib Require Import List ZArith NArith QArith Bool Lia Arith Permutation.
From Stdlib Require Import SpecFloat.
Import ListNotations.

Set Implicit Arguments.

(* ===================================================================== *)
(** ** Outcomes of Python calls *)

Inductive outcome (A : Type) : Type :=
| Return (a : A)
| Raise (exc : string)
| OutOfFuel.

Arguments Return {A} a.
Arguments Raise {A} exc.
Arguments OutOfFuel {A}.

Definition bind {A B} (m : outcome A) (k : A -> outcome B) : outcome B :=
  match m with
  | Return a => k a
  | Raise e => Raise e
  | OutOfFuel => OutOfFuel
  end.

Definition raises {A} (exc : string) (o : outcome A) : Prop := o = Raise exc.

Definition returns {A} (o : outcome A) : Prop := exists a, o = Return a.


(* ===================================================================== *)
(** ** Python numbers: [int] and [float] *)

Module PyNum.

(** binary64 *)
Definition prec : Z := 53.
Definition emax : Z := 1024.

Definition float : Type := spec_float.

Inductive num : Type :=
| PInt (z : Z)
| PFloat (f : float).

(** [0.0] *)
Definition fzero : float := S754_zero false.

(** The float nearest to an integer, without the range check; used for
    float literals such as [100.0]. *)
Definition float_of_Z (z : Z) : float := binary_normalize prec emax z 0 false.

(** Conversion of an [int] operand in mixed arithmetic. *)
Definition float_of_int (z : Z) : outcome float :=
  match float_of_Z z with
  | S754_infinity _ => Raise "OverflowError"
  | f => Return f
  end.

Definition as_float (a : num) : outcome float :=
  match a with
  | PInt z => float_of_int z
  | PFloat f => Return f
  end.


(** The call returns, or it raises OverflowError. *)
Definition returns_or_overflows {A} (o : outcome A) : Prop :=
  match o with
  | Return _ => True
  | Raise e => e = "OverflowError"%string
  | OutOfFuel => False
  end.

(** [a + b] *)
Definition py_add (a b : num) : outcome num :=
  match a, b with
  | PInt x, PInt y => Return (PInt (x + y))
  | _, _ =>
      bind (as_float a) (fun x =>
      bind (as_float b) (fun y =>
      Return (PFloat (SFadd prec emax x y))))
  end.

(** [a * b] *)
Definition py_mul (a b : num) : outcome num :=
  match a, b with
  | PInt x, PInt y => Return (PInt (x * y))
  | _, _ =>
      bind (as_float a) (fun x =>
      bind (as_float b) (fun y =>
      Return (PFloat (SFmul prec emax x y))))
  end.

Definition is_zero (f : float) : bool :=
  match f with
  | S754_zero _ => true
  | _ => false
  end.

(** [b == 0] for a divisor. *)
Definition num_is_zero (b : num) : bool :=
  match b with
  | PInt z => (z =? 0)%Z
  | PFloat f => is_zero f
  end.

(** [x / y] on two integers: the quotient rounded once, to the nearest
    float. *)
Definition int_truediv (x y : Z) : outcome float :=
  if (y =? 0)%Z then Raise "ZeroDivisionError"
  else
    match x with
    | Z0 => Return (S754_zero (y <? 0)%Z)
    | _ =>
        match SFdiv prec emax
                (S754_finite (x <? 0)%Z (Z.to_pos (Z.abs x)) 0)
                (S754_finite (y <? 0)%Z (Z.to_pos (Z.abs y)) 0) with
        | S754_infinity _ => Raise "OverflowError"
        | f => Return f
        end
    end.

(** [a / b]: both operands are converted first, then a zero divisor is
    refused. *)
Definition py_truediv (a b : num) : outcome num :=
  match a, b with
  | PInt x, PInt y => bind (int_truediv x y) (fun f => Return (PFloat f))
  | _, _ =>
      bind (as_float a) (fun x =>
      bind (as_float b) (fun y =>
      if num_is_zero b then Raise "ZeroDivisionError"
      else Return (PFloat (SFdiv prec emax x y))))
  end.

Definition is_int (a : num) : bool :=
  match a with
  | PInt _ => true
  | PFloat _ => false
  end.







(** Some floats by their bits: [0.1], [0.2], [0.3], [100.0], infinity. *)
Definition f_0_1 : float := S754_finite false 7205759403792794 (-56).
Definition f_0_2 : float := S754_finite false 7205759403792794 (-55).
Definition f_0_3 : float := S754_finite false 5404319552844595 (-54).
Definition f_100 : float := float_of_Z 100.

End PyNum.

(* ===================================================================== *)
(** ** Chunk planner: [Coordinator._split_file] *)

Module Planner.

Open Scope Z_scope.

(** A chunk is the tuple [(start, chunk_size)] appended by the loop. *)
Definition chunk : Type := (Z * Z)%type.

(** State of the [while] loop: the variables [start] and [chunks]. *)
Definition loop_state : Type := (Z * list chunk)%type.

(** One evaluation of the loop test followed by the body;
    [None] when the test [start < file_size] fails. *)
Definition split_step (file_size chunk_size : Z) (st : loop_state)
  : option loop_state :=
  let '(start, chunks) := st in
  if start <? file_size
  then Some (start + chunk_size, chunks ++ [(start, chunk_size)])
  else None.

Fixpoint split_loop (fuel : nat) (file_size chunk_size : Z) (st : loop_state)
  : outcome (list chunk) :=
  match fuel with
  | O => OutOfFuel
  | S fuel' =>
      match split_step file_size chunk_size st with
      | Some st' => split_loop fuel' file_size chunk_size st'
      | None => Return (snd st)
      end
  end.

(** [_split_file(self, filepath, file_size, chunk_size)]; [filepath] is
    unused by the body. *)
Definition _split_file (fuel : nat) (file_size chunk_size : Z)
  : outcome (list chunk) :=
  split_loop fuel file_size chunk_size (0, []).

(** The distance the loop test compares, as a natural number. *)
Definition distance (file_size : Z) (st : loop_state) : nat :=
  Z.to_nat (file_size - fst st).

Definition chunk_end (c : chunk) : Z := fst c + snd c.

Definition total_length (chunks : list chunk) : Z :=
  fold_right (fun c acc => snd c + acc) 0 chunks.

(** The arithmetic progression the loop builds from [start]. *)
Definition progression (start chunk_size : Z) (n : nat) : list chunk :=
  map (fun i => (start + Z.of_nat i * chunk_size, chunk_size)) (seq 0 n).

(** Number of iterations for a file of [file_size] bytes. *)
Definition chunk_count (file_size chunk_size : Z) : nat :=
  Z.to_nat ((file_size + chunk_size - 1) / chunk_size).

End Planner.

(* ===================================================================== *)
(** ** Python dictionaries with string keys

    A [dict] keeps its keys in insertion order; [list(d.keys())] is that
    order.  Assigning to a key that is present replaces the value in place,
    assigning to a new key appends. *)

Module Dict.

Section WithValue.
Variable V : Type.

Definition dict : Type := list (string * V).

Definition keys (d : dict) : list string := map fst d.

(** [d[k]] *)
Fixpoint get (d : dict) (k : string) : option V :=
  match d with
  | [] => None
  | (k', v) :: d' => if String.eqb k' k then Some v else get d' k
  end.

(** [k in d] *)
Definition mem (k : string) (d : dict) : bool :=
  match get d k with Some _ => true | None => false end.

(** [d[k] = v] *)
Fixpoint set (d : dict) (k : string) (v : V) : dict :=
  match d with
  | [] => [(k, v)]
  | (k', v') :: d' =>
      if String.eqb k' k then (k', v) :: d' else (k', v') :: set d' k v
  end.

(** In-place mutation of the value stored under [k]. *)
Fixpoint alter (f : V -> V) (d : dict) (k : string) : dict :=
  match d with
  | [] => []
  | (k', v') :: d' =>
      if String.eqb k' k then (k', f v') :: d' else (k', v') :: alter f d' k
  end.

End WithValue.

End Dict.

(* ===================================================================== *)
(** ** Worker registry: [self.workers] and the two handlers that mutate it *)

Module Registry.

(** The value [{"worker_url": ..., "status": ...}] stored per worker. *)
Record worker_info : Type := {
  worker_url : string;
  status : string
}.

Definition registry : Type := Dict.dict worker_info.

Definition set_status (s : string) (w : worker_info) : worker_info :=
  {| worker_url := worker_url w; status := s |}.

(** [handle_worker_registration]: the new registry and the response text. *)
Definition handle_worker_registration
  (workers : registry) (worker_id url : string) : registry * string :=
  (Dict.set workers worker_id {| worker_url := url; status := "active" |},
   ("Worker " ++ worker_id ++ " registered.")%string).

(** [handle_worker_health_check]: the new registry and the response text. *)
Definition handle_worker_health_check
  (workers : registry) (worker_id : string) : registry * string :=
  ((if Dict.mem worker_id workers
    then Dict.alter (set_status "active") workers worker_id
    else workers),
   ("Health check received for worker " ++ worker_id ++ ".")%string).

(** A registry after two registrations. *)
Definition two_workers : registry :=
  [("w1", {| worker_url := "http://localhost:8001"; status := "active" |});
   ("w2", {| worker_url := "http://localhost:8002"; status := "active" |})
  ]%string.

End Registry.

(* ===================================================================== *)
(** ** Aggregation: [Coordinator.aggregate_results] *)

Module Aggregator.
Import PyNum.

(** The metrics dictionary a worker returns for a chunk; the aggregate has
    the same four keys.  An average is a float, or the integer [0] a worker
    reports for a chunk without requests. *)
Record metrics : Type := {
  avg_response_time : num;
  requests_per_second : Z;
  error_rate : num;
  malformed_lines : Z
}.

(** The three accumulators of the [for] loop:
    [total_requests], [total_time], [total_malformed]. *)
Definition totals : Type := (Z * num * Z)%type.

(** [result["avg_response_time"] * result["requests_per_second"]] *)
Definition weighted (result : metrics) : outcome num :=
  py_mul (avg_response_time result) (PInt (requests_per_second result)).

(** The body of [for result in results]. *)
Definition accumulate (acc : totals) (result : metrics) : outcome totals :=
  let '(total_requests, total_time, total_malformed) := acc in
  bind (weighted result) (fun product =>
  bind (py_add total_time product) (fun total_time' =>
  Return ((total_requests + requests_per_second result)%Z,
          total_time',
          (total_malformed + malformed_lines result)%Z))).

(** A [for] loop whose body may raise. *)
Fixpoint for_each {S A} (body : S -> A -> outcome S) (items : list A)
  (s : S) : outcome S :=
  match items with
  | [] => Return s
  | x :: rest => bind (body s x) (for_each body rest)
  end.

(** The accumulators after the loop. *)
Definition run (results : list metrics) : outcome totals :=
  for_each accumulate results (0%Z, PInt 0, 0%Z).

(** [total_time / total_requests if total_requests > 0 else 0] *)
Definition mean (total_time : num) (total_requests : Z) : outcome num :=
  if (0 <? total_requests)%Z
  then py_truediv total_time (PInt total_requests)
  else Return (PInt 0).

Definition aggregate_results (results : list metrics) : outcome metrics :=
  bind (run results) (fun acc =>
  let '(total_requests, total_time, total_malformed) := acc in
  bind (mean total_time total_requests) (fun avg =>
  Return {| avg_response_time := avg;
            requests_per_second := total_requests;
            error_rate := PFloat fzero;
            malformed_lines := total_malformed |})).

(** A chunk result with the given average, request and malformed counts. *)
Definition chunk_result (avg : num) (requests bad : Z) : metrics :=
  {| avg_response_time := avg; requests_per_second := requests;
     error_rate := PFloat fzero; malformed_lines := bad |}.

(** The same with an integral average, as a float. *)
Definition sample (avg requests bad : Z) : metrics :=
  chunk_result (PFloat (float_of_Z avg)) requests bad.

(** Mathematical sums, used to state what the loop computes. *)
Definition Zsum (l : list Z) : Z := fold_right Z.add 0%Z l.

(** The running total of the products, added up from the left as the loop
    does, starting from [total_time]. *)
Fixpoint running_total (total_time : num) (results : list metrics)
  : outcome num :=
  match results with
  | [] => Return total_time
  | r :: rest =>
      bind (weighted r) (fun product =>
      bind (py_add total_time product) (fun total_time' =>
      running_total total_time' rest))
  end.












(** Three one-request chunks in two orders. *)
Definition ascending : list metrics :=
  [chunk_result (PFloat f_0_1) 1 0; chunk_result (PFloat f_0_2) 1 0;
   chunk_result (PFloat f_0_3) 1 0].

Definition descending : list metrics :=
  [chunk_result (PFloat f_0_3) 1 0; chunk_result (PFloat f_0_2) 1 0;
   chunk_result (PFloat f_0_1) 1 0].

End Aggregator.
(* ===================================================================== *)
(** ** Dispatch: [Coordinator.handle_process_chunk] *)

Module Dispatch.
Import Planner Registry Aggregator.

(** Parsed JSON as [request.json()] returns it (floats are not needed). *)
#[local] Unset Elimination Schemes.
Inductive json : Type :=
| JNull
| JBool (b : bool)
| JInt (z : Z)
| JStr (s : string)
| JList (l : list json)
| JDict (d : list (string * json)).
#[local] Set Elimination Schemes.

(** [await request.json()]: the parsed body, or the decoder's exception
    when the body is not JSON ([None]). *)
Definition request_json (body : option json) : outcome json :=
  match body with
  | Some data => Return data
  | None => Raise "JSONDecodeError"
  end.

(** [data[key]] for a string key. *)
Definition getitem (data : json) (key : string) : outcome json :=
  match data with
  | JDict d =>
      match Dict.get d key with
      | Some v => Return v
      | None => Raise "KeyError"
      end
  | _ => Raise "TypeError"
  end.

(** The names bound at module level in [coordinator.py]: its imports, the
    class and the variables of the [__main__] block.  The builtins hold no
    [os] either. *)
Definition coordinator_globals : list string :=
  ["argparse"; "asyncio"; "aiohttp"; "json"; "List"; "web";
   "Coordinator"; "parser"; "args"; "coordinator"]%string.

(** Evaluation of a global name. *)
Definition load_global (globals : list string) (name : string)
  : outcome unit :=
  if existsb (String.eqb name) globals then Return tt else Raise "NameError".

(** The body [{"filepath": ..., "start": ..., "size": ...}] of a request
    to a worker. *)
Record chunk_data : Type := {
  cd_filepath : json;
  cd_start : Z;
  cd_size : Z
}.

(** One outbound request: the worker chosen, the URL posted to, the body. *)
Record sent : Type := {
  assigned : string;
  url : string;
  payload : chunk_data
}.

(** The request the loop sends for [chunk] when it picks [(id, w)]. *)
Definition request_for (filepath : json) (id : string) (w : worker_info)
  (chunk : Planner.chunk) : sent :=
  {| assigned := id;
     url := (worker_url w ++ "/process")%string;
     payload := {| cd_filepath := filepath;
                   cd_start := fst chunk;
                   cd_size := snd chunk |} |}.

(** Handlers run against a log of the requests sent so far. *)
Definition M (A : Type) : Type := list sent -> list sent * outcome A.

Definition ret {A} (a : A) : M A := fun log => (log, Return a).

Definition lift {A} (o : outcome A) : M A := fun log => (log, o).

Definition bindM {A B} (m : M A) (k : A -> M B) : M B :=
  fun log =>
    match m log with
    | (log', Return a) => k a log'
    | (log', Raise e) => (log', Raise e)
    | (log', OutOfFuel) => (log', OutOfFuel)
    end.

Notation "x <~ m ;; k" := (bindM m (fun x => k))
  (at level 61, m at next level, right associativity).

(** [i % n] on non-negative integers. *)
Definition py_mod (i n : nat) : outcome nat :=
  if Nat.eqb n 0 then Raise "ZeroDivisionError" else Return (i mod n)%nat.

(** [l[i]] on a list. *)
Definition index {A} (l : list A) (i : nat) : outcome A :=
  match nth_error l i with
  | Some a => Return a
  | None => Raise "IndexError"
  end.

(** [self.workers[worker_id]] *)
Definition lookup (workers : registry) (worker_id : string)
  : outcome worker_info :=
  match Dict.get workers worker_id with
  | Some w => Return w
  | None => Raise "KeyError"
  end.

Section WithNetwork.

(** The worker behind a URL: what [session.post(...)] followed by
    [resp.json()] yields for a body. *)
Variable post : string -> chunk_data -> outcome metrics.

Definition send (worker_id worker_url : string) (body : chunk_data)
  : M metrics :=
  fun log =>
    let target := (worker_url ++ "/process")%string in
    (log ++ [{| assigned := worker_id; url := target; payload := body |}],
     post target body).

(** The loop [for i, chunk in enumerate(chunks)], from index [i] on. *)
Fixpoint dispatch_loop (workers : registry) (filepath : json) (i : nat)
  (chunks : list chunk) (results : list metrics) : M (list metrics) :=
  match chunks with
  | [] => ret results
  | chunk :: rest =>
      k <~ lift (py_mod i (List.length workers)) ;;
      worker_id <~ lift (index (Dict.keys workers) k) ;;
      w <~ lift (lookup workers worker_id) ;;
      worker_result <~
        send worker_id (worker_url w)
             {| cd_filepath := filepath;
                cd_start := fst chunk;
                cd_size := snd chunk |} ;;
      dispatch_loop workers filepath (S i) rest (results ++ [worker_result])
  end.

(** [_split_file] applied to the [chunk_size] taken from the request: an
    integer (or a boolean, which Python counts as 0 or 1) steps the loop;
    any other JSON value makes [start += chunk_size] fail in the first
    iteration, if there is one. *)
Definition split_request (fuel : nat) (file_size : Z) (chunk_size : json)
  : outcome (list chunk) :=
  match chunk_size with
  | JInt z => _split_file fuel file_size z
  | JBool b => _split_file fuel file_size (if b then 1 else 0)
  | _ => if (0 <? file_size)%Z then Raise "TypeError" else Return []
  end.

Section WithEnvironment.

(** The global names visible to the handler, and [os.path.getsize]. *)
Variable globals : list string.
Variable getsize : json -> outcome Z.

Definition handle_process_chunk (fuel : nat) (workers : registry)
  (body : option json) : M metrics :=
  data <~ lift (request_json body) ;;
  filepath <~ lift (getitem data "filepath") ;;
  chunk_size <~ lift (getitem data "chunk_size") ;;
  _ <~ lift (load_global globals "os") ;;
  file_size <~ lift (getsize filepath) ;;
  chunks <~ lift (split_request fuel file_size chunk_size) ;;
  results <~ dispatch_loop workers filepath 0 chunks [] ;;
  lift (aggregate_results results).

End WithEnvironment.

End WithNetwork.

(** *** A small deployment to run the model on *)

(** A worker that answers every chunk with 5 requests of 100 ms. *)
Definition steady_worker (_ : string) (_ : chunk_data) : outcome metrics :=
  Return (sample 100 5 0).

Definition size_100 (_ : json) : outcome Z := Return 100%Z.

Definition good_body : json :=
  JDict [("filepath", JStr "app.log"); ("chunk_size", JInt 10)]%string.

End Dispatch.

(* ===================================================================== *)
(** ** Worker: the line parser of [Worker.process_chunk] *)

Module Worker.
Import PyNum Aggregator.

(** A character is a code point. *)
Definition char : Type := N.

Definition text : Type := list char.

(** A string literal of the source as text. *)
Definition L (s : string) : text := map N_of_ascii (list_ascii_of_string s).

(** The values of the decimal digits. *)
Inductive digit : Type := D0 | D1 | D2 | D3 | D4 | D5 | D6 | D7 | D8 | D9.

Definition digit_val (d : digit) : Z :=
  match d with
  | D0 => 0 | D1 => 1 | D2 => 2 | D3 => 3 | D4 => 4
  | D5 => 5 | D6 => 6 | D7 => 7 | D8 => 8 | D9 => 9
  end%Z.

(** What the parser needs of the Unicode database beyond ASCII: the code
    points that are white space, and those that are decimal digits
    (category Nd) with the digit each stands for. *)
Record unicode_db : Type := {
  uni_space : char -> bool;
  uni_decimal : char -> option digit
}.

(** A database with no white space and no digit beyond ASCII. *)
Definition ascii_only : unicode_db :=
  {| uni_space := fun _ => false; uni_decimal := fun _ => None |}.

(** The fragment of [re] the pattern uses: literal text, [\S+], [\d+],
    concatenation and capturing groups. *)
Inductive charclass : Type := NonSpace | Digit.

Inductive regex : Type :=
| Lit (l : text)
| Plus (c : charclass)
| Cat (r1 r2 : regex)
| Group (r : regex).

(** [r"(\S+ \S+) (\S+) Request processed in (\d+)ms"] *)
Definition log_pattern : regex :=
  Cat (Group (Cat (Plus NonSpace) (Cat (Lit (L " ")) (Plus NonSpace))))
 (Cat (Lit (L " "))
 (Cat (Group (Plus NonSpace))
 (Cat (Lit (L " Request processed in "))
 (Cat (Group (Plus Digit))
      (Lit (L "ms")))))).

(** [strip_prefix l s] is the rest of [s] after the literal [l]. *)
Fixpoint strip_prefix (l s : text) : option text :=
  match l, s with
  | [], _ => Some s
  | a :: l', b :: s' => if N.eqb a b then strip_prefix l' s' else None
  | _ :: _, [] => None
  end.

(** One way of matching: the text consumed, the groups captured (in the
    order their parentheses open) and the text left. *)
Definition parse : Type := (text * list text * text)%type.

(** The counters of [process_chunk]. *)
Record counters : Type := {
  total_time : Z;
  total_requests : Z;
  malformed : Z
}.

Definition initial : counters :=
  {| total_time := 0; total_requests := 0; malformed := 0 |}.

(** The default of [sys.int_max_str_digits]: [int] refuses a string with
    more digits. *)
Definition int_max_str_digits : nat := 4300.

Definition sample_line : text :=
  L "2024-01-01 12:00:00 INFO Request processed in 123ms".

Definition two_token_line : text := L "a b Request processed in 123ms".

Section WithUnicode.

Variable db : unicode_db.

(** White space as [\s] sees it in a [str] pattern: tab to carriage
    return, the four separators 28..31 and the space in ASCII, and what
    the database says beyond. *)
Definition is_space (c : char) : bool :=
  if (c <? 128)%N
  then (((9 <=? c) && (c <=? 13)) || ((28 <=? c) && (c <=? 32)))%N
  else uni_space db c.

(** The value of a decimal digit, as [\d] and [int] see it. *)
Definition decimal (c : char) : option Z :=
  if (c <? 128)%N
  then (if ((48 <=? c) && (c <=? 57))%N then Some (Z.of_N c - 48)%Z
        else None)
  else option_map digit_val (uni_decimal db c).

Definition is_digit (c : char) : bool :=
  match decimal c with
  | Some _ => true
  | None => false
  end.

Definition in_class (c : charclass) (a : char) : bool :=
  match c with
  | NonSpace => negb (is_space a)
  | Digit => is_digit a
  end.

(** The ways [c+] can match at the start of [s], as (matched, rest) pairs:
    greedy, so the longest run comes first. *)
Fixpoint plus_runs (c : charclass) (s : text) : list (text * text) :=
  match s with
  | [] => []
  | a :: s' =>
      if in_class c a
      then map (fun pr => (a :: fst pr, snd pr)) (plus_runs c s')
           ++ [([a], s')]
      else []
  end.

(** All the ways [r] matches at the start of [s], in the order a
    backtracking matcher tries them. *)
Fixpoint parses (r : regex) (s : text) : list parse :=
  match r with
  | Lit l =>
      match strip_prefix l s with
      | Some rest => [(l, [], rest)]
      | None => []
      end
  | Plus c => map (fun pr => (fst pr, [], snd pr)) (plus_runs c s)
  | Cat r1 r2 =>
      flat_map
        (fun p1 : parse =>
           let '(c1, g1, rest1) := p1 in
           map (fun p2 : parse =>
                  let '(c2, g2, rest2) := p2 in (c1 ++ c2, g1 ++ g2, rest2))
               (parses r2 rest1))
        (parses r1 s)
  | Group r' =>
      map (fun p : parse => let '(c, g, rest) := p in (c, c :: g, rest))
          (parses r' s)
  end.

(** [re.match(pattern, line)] followed by [.groups()]: the first way the
    pattern matches at the start of the line, if any. *)
Definition re_match (pattern : regex) (line : text) : option (list text) :=
  match parses pattern line with
  | (_, groups, _) :: _ => Some groups
  | [] => None
  end.

Definition digit_value (c : char) : Z :=
  match decimal c with
  | Some v => v
  | None => 0%Z
  end.

(** The number a string of decimal digits denotes. *)
Definition decimal_value (digits : text) : Z :=
  fold_left (fun acc c => (10 * acc + digit_value c)%Z) digits 0%Z.

(** [int(response_time)] on a string of decimal digits. *)
Definition int (digits : text) : outcome Z :=
  if (int_max_str_digits <? List.length digits)%nat
  then Raise "ValueError"
  else Return (decimal_value digits).

(** The body of [for line in lines]. *)
Definition process_line (st : counters) (line : text) : outcome counters :=
  match re_match log_pattern line with
  | Some groups =>
      match groups with
      | [timestamp; log_level; response_time] =>
          bind (int response_time) (fun ms =>
          Return {| total_time := total_time st + ms;
                    total_requests := total_requests st + 1;
                    malformed := malformed st |})
      | _ => Raise "ValueError"
      end
  | None =>
      Return {| total_time := total_time st;
                total_requests := total_requests st;
                malformed := malformed st + 1 |}
  end.

Fixpoint process_lines (st : counters) (lines : list text)
  : outcome counters :=
  match lines with
  | [] => Return st
  | line :: rest =>
      match process_line st line with
      | Return st' => process_lines st' rest
      | Raise e => Raise e
      | OutOfFuel => OutOfFuel
      end
  end.

(** The metrics dictionary built after the loop;
    [avg_response_time = total_time / total_requests if total_requests > 0
    else 0] divides two integers. *)
Definition to_metrics (st : counters) : outcome metrics :=
  bind (if (0 <? total_requests st)%Z
        then py_truediv (PInt (total_time st)) (PInt (total_requests st))
        else Return (PInt 0))
       (fun avg =>
  Return {| error_rate := PFloat fzero;
            avg_response_time := avg;
            requests_per_second := total_requests st;
            malformed_lines := malformed st |}).

(** [process_chunk(filepath, start, size)], given what
    [f.seek(start); f.readlines(size)] yields for the file. *)
Definition process_chunk
  (readlines : string -> Z -> Z -> outcome (list text))
  (filepath : string) (start size : Z) : outcome metrics :=
  bind (readlines filepath start size) (fun lines =>
  bind (process_lines initial lines) (fun st =>
  to_metrics st)).

(** *** The shape of a request line *)

Definition token (t : text) : Prop :=
  t <> [] /\ Forall (fun a => is_space a = false) t.

Definition number (d : text) : Prop :=
  d <> [] /\ Forall (fun a => is_digit a = true) d.

(** What the pattern accepts: three tokens separated by single spaces, the
    fixed text, a decimal number and [ms]; anything may follow. *)
Definition request_shape (line t1 t2 t3 d rest : text) : Prop :=
  token t1 /\ token t2 /\ token t3 /\ number d /\
  line = t1 ++ L " " ++ t2 ++ L " " ++ t3
         ++ L " Request processed in " ++ d ++ L "ms" ++ rest.

(** The shape in the words of the specification: two tokens before the
    fixed text, and nothing after [ms]. *)
Definition two_token_shape (line t1 t2 d : text) : Prop :=
  token t1 /\ token t2 /\ number d /\
  line = t1 ++ L " " ++ t2 ++ L " Request processed in " ++ d ++ L "ms".

(** What matching means, independently of the search order. *)
Inductive Matches : regex -> text -> list text -> Prop :=
| MLit l : Matches (Lit l) l []
| MPlus c s :
    s <> [] -> Forall (fun a => in_class c a = true) s ->
    Matches (Plus c) s []
| MCat r1 r2 s1 s2 g1 g2 :
    Matches r1 s1 g1 -> Matches r2 s2 g2 ->
    Matches (Cat r1 r2) (s1 ++ s2) (g1 ++ g2)
| MGroup r s g : Matches r s g -> Matches (Group r) s (s :: g).

End WithUnicode.

End Worker.
(* ===================================================================== *)
(** ** The registry over the life of a coordinator

    [Coordinator.__init__] starts with [self.workers = {}]; from then on
    only the two handlers of [/register] and [/heartbeat] write to it. *)

Module Lifecycle.
Import Registry.

Inductive request : Type :=
| Register (worker_id worker_url : string)
| Heartbeat (worker_id : string).

Definition handle (workers : registry) (r : request) : registry :=
  match r with
  | Register worker_id worker_url =>
      fst (handle_worker_registration workers worker_id worker_url)
  | Heartbeat worker_id =>
      fst (handle_worker_health_check workers worker_id)
  end.

(** The registry after the coordinator has served the requests in order. *)
Definition serve (requests : list request) : registry :=
  fold_left handle requests [].

(** The worker ids in the order of their first registration. *)
Definition note_id (ids : list string) (r : request) : list string :=
  match r with
  | Register worker_id _ =>
      if existsb (String.eqb worker_id) ids then ids else ids ++ [worker_id]
  | Heartbeat _ => ids
  end.

Definition first_registered (requests : list request) : list string :=
  fold_left note_id requests [].

Definition registers (worker_id : string) (r : request) : bool :=
  match r with
  | Register worker_id' _ => String.eqb worker_id' worker_id
  | Heartbeat _ => false
  end.

(** Every entry has status [active]. *)
Definition all_active (workers : registry) : Prop :=
  Forall (fun kv : string * worker_info => status (snd kv) = "active"%string)
         workers.

End Lifecycle.

(* ===================================================================== *)
(** ** Worker: the handler of [/process] *)

Module WorkerServer.
Import Aggregator Dispatch Worker.

Section WithFiles.

Variable db : unicode_db.

(** [open(filepath, 'r')], [f.seek(start)] and [f.readlines(size)] on the
    values taken from the request: the lines read, or the exception. *)
Variable read : json -> json -> json -> outcome (list text).

(** [process_chunk] on the untyped values the handler passes on. *)
Definition process_chunk_of (filepath start size : json) : outcome metrics :=
  bind (read filepath start size) (fun lines =>
  bind (process_lines db initial lines) (fun st =>
  to_metrics st)).

(** [Worker.handle_process_chunk] *)
Definition handle_process_chunk (body : option json) : outcome metrics :=
  bind (request_json body) (fun data =>
  bind (getitem data "filepath") (fun filepath =>
  bind (getitem data "start") (fun start =>
  bind (getitem data "size") (fun size =>
  process_chunk_of filepath start size)))).

End WithFiles.

(** The dictionary [chunk_data] of the coordinator as the receiving
    handler's [request.json()] yields it. *)
Definition to_json (cd : chunk_data) : json :=
  JDict [("filepath", cd_filepath cd);
         ("start", JInt (cd_start cd));
         ("size", JInt (cd_size cd))]%string.

End WorkerServer.

(* ===================================================================== *)
(** ** Analyzer: [Analyzer.update_metrics] and [get_current_metrics] *)

Module Analyzer.
Import PyNum.

(** [self.metrics]: three running totals and the dictionary
    [resource_usage]. *)
Record analyzer_metrics : Type := {
  error_rate_per_minute : num;
  average_response_time : num;
  request_count_per_second : num;
  resource_usage : Dict.dict num
}.

(** [Analyzer.__init__]: the totals start as the integer [0]. *)
Definition init : analyzer_metrics :=
  {| error_rate_per_minute := PInt 0;
     average_response_time := PInt 0;
     request_count_per_second := PInt 0;
     resource_usage := [] |}.

(** [new_data.get(key, 0)] *)
Definition get_or_zero (new_data : Dict.dict num) (key : string) : num :=
  match Dict.get new_data key with
  | Some v => v
  | None => PInt 0
  end.

(** One [self.metrics[key] += ...] followed by the rest of the method: when
    the addition raises, the dictionary stays as the statements before it
    left it. *)
Definition assign (m : analyzer_metrics) (sum : outcome num)
  (store : num -> analyzer_metrics)
  (rest : analyzer_metrics -> analyzer_metrics * outcome unit)
  : analyzer_metrics * outcome unit :=
  match sum with
  | Return v => rest (store v)
  | Raise e => (m, Raise e)
  | OutOfFuel => (m, OutOfFuel)
  end.

(** [update_metrics]: the object after the call, and how the call ended. *)
Definition update_metrics (m : analyzer_metrics) (new_data : Dict.dict num)
  : analyzer_metrics * outcome unit :=
  assign m
    (py_add (error_rate_per_minute m)
            (get_or_zero new_data "error_rate_per_minute"))
    (fun v => {| error_rate_per_minute := v;
                 average_response_time := average_response_time m;
                 request_count_per_second := request_count_per_second m;
                 resource_usage := resource_usage m |})
    (fun m1 =>
  assign m1
    (py_add (average_response_time m1)
            (get_or_zero new_data "average_response_time"))
    (fun v => {| error_rate_per_minute := error_rate_per_minute m1;
                 average_response_time := v;
                 request_count_per_second := request_count_per_second m1;
                 resource_usage := resource_usage m1 |})
    (fun m2 =>
  assign m2
    (py_add (request_count_per_second m2)
            (get_or_zero new_data "request_count_per_second"))
    (fun v => {| error_rate_per_minute := error_rate_per_minute m2;
                 average_response_time := average_response_time m2;
                 request_count_per_second := v;
                 resource_usage := resource_usage m2 |})
    (fun m3 => (m3, Return tt)))).


(** The analyzer after the updates, in order; the first update that raises
    ends the run. *)
Fixpoint feed_from (m : analyzer_metrics) (updates : list (Dict.dict num))
  : analyzer_metrics * outcome unit :=
  match updates with
  | [] => (m, Return tt)
  | d :: rest =>
      match update_metrics m d with
      | (m', Return _) => feed_from m' rest
      | stopped => stopped
      end
  end.

Definition feed (updates : list (Dict.dict num))
  : analyzer_metrics * outcome unit :=
  feed_from init updates.

Definition tracked (key : string) : bool :=
  String.eqb key "error_rate_per_minute"
  || String.eqb key "average_response_time"
  || String.eqb key "request_count_per_second".




Definition sample_updates : list (Dict.dict num) :=
  [[("request_count_per_second", PInt 5); ("cpu", PFloat f_0_1)];
   [("average_response_time", PInt 120);
    ("request_count_per_second", PInt 7)]]%string.

End Analyzer.

(* ===================================================================== *)
(** ** Counters a worker can reach *)

Module WorkerState.
Import Aggregator Worker.

(** What holds of the counters while [process_chunk] scans its lines:
    nothing is negative, and time is only ever added with a request. *)
Definition consistent (st : counters) : Prop :=
  (0 <= total_requests st)%Z /\ (0 <= malformed st)%Z /\
  (0 <= total_time st)%Z /\
  (total_requests st = 0%Z -> total_time st = 0%Z).

(** The line is counted as a request. *)
Definition matched (db : unicode_db) (line : text) : bool :=
  match re_match db log_pattern line with
  | Some _ => true
  | None => false
  end.

(** The lines of a few chunks, and the metrics a worker returns for each. *)
Definition scanned (db : unicode_db) (chunks : list (list text))
  (results : list metrics) : Prop :=
  Forall2 (fun lines r =>
             bind (process_lines db initial lines) to_metrics = Return r)
          chunks results.

(** No line is longer than the number of digits [int] converts. *)
Definition short_lines (lines : list text) : Prop :=
  Forall (fun line => (List.length line <= int_max_str_digits)%nat) lines.

Definition sample_chunk : list text :=
  [L "2024-01-01 12:00:00 INFO Request processed in 120ms";
   L "not a request";
   L "2024-01-01 12:00:01 INFO Request processed in 80ms"].




(** The line feed that [readlines] leaves at the end of a line. *)
Definition newline : char := 10%N.

(** A line whose number has one digit more than [int] converts. *)
Definition long_number_line : text :=
  L "a b c Request processed in " ++ repeat 49%N 4301 ++ L "ms".

End WorkerState.

(* ===================================================================== *)
(** ** Reading the log of a dispatch *)

Module DispatchLog.
Import Registry Aggregator Dispatch.

(** What the worker behind a logged request answered. *)
Definition answered (post : string -> chunk_data -> outcome metrics)
  (s : sent) (r : metrics) : Prop :=
  post (url s) (payload s) = Return r.

(** The request round-robin prescribes for the chunk at position [i]: to
    the worker at position [i mod N] of the registry. *)
Definition request_at (workers : registry) (filepath : json) (i : nat)
  (chunk : Planner.chunk) : option sent :=
  match nth_error workers (i mod List.length workers) with
  | Some (id, w) => Some (request_for filepath id w chunk)
  | None => None
  end.

(** A worker pool in which the chunk starting at byte 10 cannot be
    processed. *)
Definition fails_at_10 (_ : string) (body : chunk_data) : outcome metrics :=
  if (cd_start body =? 10)%Z then Raise "ClientError"
  else Return (sample 100 5 0).

Definition three_chunks : list Planner.chunk := [(0, 10); (10, 10); (20, 10)]%Z.

(** How many of the requests went to a worker. *)
Definition load (log : list sent) (worker_id : string) : nat :=
  List.length (filter (fun s => String.eqb (assigned s) worker_id) log).

End DispatchLog.

(* ===================================================================== *)
(** ** Properties of the chunk planner *)

Module PlannerFacts.
Import Planner.
Open Scope Z_scope.

Example split_10_4 :
  _split_file 10 10 4 = Return [(0, 4); (4, 4); (8, 4)].
Proof. reflexivity. Qed.

Example split_empty_file : _split_file 1 0 4 = Return [].
Proof. reflexivity. Qed.

Lemma progression_S start cs n :
  progression start cs (S n) = (start, cs) :: progression (start + cs) cs n.
Proof.
  unfold progression. cbn [seq map]. rewrite <- seq_shift, map_map.
  f_equal.
  - f_equal. lia.
  - apply map_ext. intros i. f_equal. lia.
Qed.

Lemma progression_length start cs n : length (progression start cs n) = n.
Proof. unfold progression. now rewrite length_map, length_seq. Qed.

Lemma progression_nth start cs n i :
  (i < n)%nat ->
  nth_error (progression start cs n) i = Some (start + Z.of_nat i * cs, cs).
Proof.
  intros Hi. unfold progression.
  rewrite nth_error_map, nth_error_seq.
  destruct (Nat.ltb_spec i n); [reflexivity | lia].
Qed.

Lemma progression_total start cs n :
  total_length (progression start cs n) = Z.of_nat n * cs.
Proof.
  revert start. induction n as [|n IH]; intros start.
  - reflexivity.
  - rewrite progression_S. unfold total_length in *.
    cbn [fold_right snd]. rewrite IH. lia.
Qed.

(** Running the loop: [n] more iterations are due exactly when
    [(n - 1) * cs < file_size - start <= n * cs]. *)
Lemma split_loop_run n : forall fuel fs cs start acc,
  0 < cs ->
  fs - start <= Z.of_nat n * cs ->
  (0 < n)%nat -> (Z.of_nat n - 1) * cs < fs - start ->
  (n < fuel)%nat ->
  split_loop fuel fs cs (start, acc) = Return (acc ++ progression start cs n).
Proof.
  induction n as [|n IH]; intros fuel fs cs start acc Hcs Hup Hn Hlo Hfuel.
  - lia.
  - destruct fuel as [|fuel]; [lia|].
    simpl. destruct (Z.ltb_spec start fs) as [Hlt|Hge]; [|nia].
    rewrite progression_S.
    destruct n as [|n].
    + destruct fuel as [|fuel]; [lia|]. simpl.
      destruct (Z.ltb_spec (start + cs) fs); [lia|].
      simpl. reflexivity.
    + rewrite IH; try lia.
      now rewrite <- app_assoc.
Qed.

Lemma split_loop_done fuel fs cs start acc :
  fs <= start -> split_loop (S fuel) fs cs (start, acc) = Return acc.
Proof.
  intros H. simpl. destruct (Z.ltb_spec start fs); [lia | reflexivity].
Qed.

Lemma chunk_count_bounds fs cs :
  0 <= fs -> 0 < cs ->
  fs <= Z.of_nat (chunk_count fs cs) * cs /\
  (0 < fs -> (Z.of_nat (chunk_count fs cs) - 1) * cs < fs) /\
  (fs = 0 -> chunk_count fs cs = 0%nat).
Proof.
  intros Hfs Hcs. unfold chunk_count.
  pose proof (Z.div_mod (fs + cs - 1) cs ltac:(lia)) as Hdm.
  pose proof (Z.mod_pos_bound (fs + cs - 1) cs Hcs) as Hm.
  assert (Hq : 0 <= (fs + cs - 1) / cs) by (apply Z.div_pos; lia).
  rewrite Z2Nat.id by exact Hq.
  repeat split.
  - nia.
  - intros _. nia.
  - intros ->. replace (0 + cs - 1) with (cs - 1) by lia.
    rewrite Z.div_small by lia. reflexivity.
Qed.

Lemma split_file_result fs cs fuel :
  0 <= fs -> 0 < cs -> (chunk_count fs cs < fuel)%nat ->
  _split_file fuel fs cs = Return (progression 0 cs (chunk_count fs cs)).
Proof.
  intros Hfs Hcs Hfuel. unfold _split_file.
  destruct (chunk_count_bounds Hfs Hcs) as (Hup & Hlo & Hz).
  destruct (Z.eq_dec fs 0) as [->|Hne].
  - rewrite (Hz eq_refl) in *. destruct fuel; [lia|].
    now rewrite split_loop_done by lia.
  - assert (0 < chunk_count fs cs)%nat by nia.
    rewrite split_loop_run with (n := chunk_count fs cs); try lia.
    reflexivity.
Qed.

(** With a non-positive step the loop variable never reaches a positive
    [file_size]. *)
Lemma split_loop_diverges fuel : forall fs cs start acc,
  cs <= 0 -> start < fs -> split_loop fuel fs cs (start, acc) = OutOfFuel.
Proof.
  induction fuel as [|fuel IH]; intros fs cs start acc Hcs Hlt.
  - reflexivity.
  - simpl. destruct (Z.ltb_spec start fs); [|lia].
    apply IH; lia.
Qed.

(** The planner has no [raise]: no run of the loop ends in an exception. *)
Lemma split_loop_never_raises fuel : forall fs cs st exc,
  split_loop fuel fs cs st <> Raise exc.
Proof.
  induction fuel as [|fuel IH]; intros fs cs st exc.
  - discriminate.
  - simpl. destruct (split_step fs cs st); [apply IH | discriminate].
Qed.

Lemma split_step_distance fs cs st st' :
  1 <= cs -> split_step fs cs st = Some st' ->
  (distance fs st' < distance fs st)%nat.
Proof.
  intros Hcs. destruct st as [start chunks]. unfold split_step, distance.
  destruct (Z.ltb_spec start fs); [|discriminate].
  intros [= <-]. simpl. lia.
Qed.

(** C3 (as stated, refuted): with [chunk_size = 0] the planner never fails
    with InvalidArgument.  For an empty file it returns the empty plan; for
    a file of 10 bytes the loop is still running after any number of
    iterations; with a negative size on both sides it returns the empty
    plan as well. *)
Lemma C3_counterexample :
  _split_file 1 0 0 = Return [] /\
  ~ raises "InvalidArgument" (_split_file 1 0 0) /\
  (forall fuel, _split_file fuel 10 0 = OutOfFuel) /\
  (forall fuel, ~ raises "InvalidArgument" (_split_file fuel 10 0)) /\
  _split_file 1 (-5) (-3) = Return [].
Proof.
  assert (Hloop : forall fuel, _split_file fuel 10 0 = OutOfFuel).
  { intros fuel. unfold _split_file. apply split_loop_diverges; lia. }
  repeat split; try discriminate; try exact Hloop.
  intros fuel. unfold raises. now rewrite Hloop.
Qed.

(** C3 (amended): [_split_file] does not validate [chunk_size].  For every
    call with [chunk_size <= 0]: when [file_size <= 0] the loop body is never
    entered and the empty plan is returned; when [file_size > 0] the loop
    never ends, so no plan is returned, whatever number of iterations is
    allowed; in neither case does the call fail with InvalidArgument. *)
Theorem C3_nonpositive_chunk_size fuel fs cs :
  cs <= 0 ->
  (fs <= 0 -> _split_file (S fuel) fs cs = Return []) /\
  (0 < fs -> _split_file fuel fs cs = OutOfFuel) /\
  ~ raises "InvalidArgument" (_split_file fuel fs cs).
Proof.
  intros Hcs.
  assert (Hloop : 0 < fs -> _split_file fuel fs cs = OutOfFuel).
  { intros Hfs. unfold _split_file. apply split_loop_diverges; lia. }
  split; [|split].
  - intros Hfs. unfold _split_file. now apply split_loop_done.
  - exact Hloop.
  - unfold raises. destruct (Z.lt_ge_cases 0 fs) as [Hfs|Hfs].
    + now rewrite Hloop.
    + destruct fuel as [|fuel']; [discriminate|].
      unfold _split_file. now rewrite split_loop_done.
Qed.

Lemma C3_nonpositive_chunk_size_witness :
  -4 <= 0 /\ 0 < 10 /\
  _split_file 100 10 (-4) = OutOfFuel /\
  ~ raises "InvalidArgument" (_split_file 100 10 (-4)).
Proof.
  assert (Hcs : -4 <= 0) by lia.
  assert (Hfs : 0 < 10) by lia.
  destruct (@C3_nonpositive_chunk_size 100 10 (-4) Hcs)
    as (_ & Hloop & Hnone).
  split; [exact Hcs|]. split; [exact Hfs|].
  split; [exact (Hloop Hfs) | exact Hnone].
Defined.

(** C5: for [file_size >= 0] and [chunk_size > 0] the plan is returned;
    its first chunk starts at 0, consecutive offsets grow by exactly
    [chunk_size] (each chunk starts where the previous one ends), every
    byte of [[0, file_size)] lies in exactly one chunk, every chunk starts
    inside the file, and the declared lengths add up to at least
    [file_size]. *)
Theorem C5_plan_covers fs cs :
  0 <= fs -> 0 < cs ->
  exists chunks,
    (forall fuel, (chunk_count fs cs < fuel)%nat ->
                  _split_file fuel fs cs = Return chunks) /\
    (forall c, hd_error chunks = Some c -> fst c = 0) /\
    (0 < fs -> chunks <> []) /\
    (forall i a b, nth_error chunks i = Some a ->
                   nth_error chunks (S i) = Some b ->
                   fst a < fst b /\ fst b = fst a + cs /\
                   fst b = chunk_end a) /\
    (forall x, 0 <= x < fs ->
       exists i c, nth_error chunks i = Some c /\
                   fst c <= x < chunk_end c /\
                   forall j d, nth_error chunks j = Some d ->
                               fst d <= x < chunk_end d -> j = i) /\
    (forall c, In c chunks -> snd c = cs /\ 0 <= fst c < fs) /\
    fs <= total_length chunks.
Proof.
  intros Hfs Hcs.
  destruct (chunk_count_bounds Hfs Hcs) as (Hup & Hlo & Hz).
  set (n := chunk_count fs cs) in *.
  assert (Hnth : forall i c, nth_error (progression 0 cs n) i = Some c ->
                             (i < n)%nat /\ c = (Z.of_nat i * cs, cs)).
  { intros i c Hi.
    assert (Hlt : (i < n)%nat).
    { rewrite <- (progression_length 0 cs n).
      apply nth_error_Some. congruence. }
    split; [exact Hlt|].
    rewrite progression_nth in Hi by exact Hlt.
    injection Hi as <-. f_equal. }
  exists (progression 0 cs n). repeat split.
  - intros fuel Hfuel. now apply split_file_result.
  - intros c Hc. destruct n as [|m]; [discriminate|].
    rewrite progression_S in Hc. now injection Hc as <-.
  - intros Hpos Hnil.
    pose proof (progression_length 0 cs n) as Hlen.
    rewrite Hnil in Hlen. simpl in Hlen. nia.
  - apply Hnth in H as [_ ->]. apply Hnth in H0 as [_ ->].
    cbn [fst snd]. lia.
  - apply Hnth in H as [_ ->]. apply Hnth in H0 as [_ ->].
    cbn [fst snd]. lia.
  - apply Hnth in H as [_ ->]. apply Hnth in H0 as [_ ->].
    unfold chunk_end. cbn [fst snd]. lia.
  - intros x Hx.
    pose proof (Z.div_mod x cs ltac:(lia)) as Hdm.
    pose proof (Z.mod_pos_bound x cs Hcs) as Hm.
    assert (Hq : 0 <= x / cs) by (apply Z.div_pos; lia).
    assert (Hqn : x / cs < Z.of_nat n)
      by (apply Z.div_lt_upper_bound; lia).
    assert (Hi : (Z.to_nat (x / cs) < n)%nat) by lia.
    exists (Z.to_nat (x / cs)), (Z.of_nat (Z.to_nat (x / cs)) * cs, cs).
    split; [now apply progression_nth|].
    unfold chunk_end. cbn [fst snd]. rewrite Z2Nat.id by exact Hq.
    split; [nia|].
    intros j d Hj Hd. apply Hnth in Hj as [_ ->].
    unfold chunk_end in Hd. cbn [fst snd] in Hd. nia.
  - apply In_nth_error in H as [i Hi]. now apply Hnth in Hi as [_ ->].
  - apply In_nth_error in H as [i Hi]. apply Hnth in Hi as [_ ->].
    cbn [fst snd]. nia.
  - apply In_nth_error in H as [i Hi]. apply Hnth in Hi as [Hlt ->].
    cbn [fst snd]. nia.
  - rewrite progression_total. exact Hup.
Qed.

Lemma C5_plan_covers_witness :
  exists chunks,
    (forall fuel, (chunk_count 10 4 < fuel)%nat ->
                  _split_file fuel 10 4 = Return chunks) /\
    (forall c, hd_error chunks = Some c -> fst c = 0) /\
    (0 < 10 -> chunks <> []) /\
    (forall i a b, nth_error chunks i = Some a ->
                   nth_error chunks (S i) = Some b ->
                   fst a < fst b /\ fst b = fst a + 4 /\
                   fst b = chunk_end a) /\
    (forall x, 0 <= x < 10 ->
       exists i c, nth_error chunks i = Some c /\
                   fst c <= x < chunk_end c /\
                   forall j d, nth_error chunks j = Some d ->
                               fst d <= x < chunk_end d -> j = i) /\
    (forall c, In c chunks -> snd c = 4 /\ 0 <= fst c < 10) /\
    10 <= total_length chunks.
Proof. apply (@C5_plan_covers 10 4); lia. Defined.

(** C10: for [file_size >= 0] and [chunk_size >= 1] the loop terminates
    (with enough fuel the plan is returned, and each iteration strictly
    decreases the distance [file_size - start]); for [chunk_size <= 0] and
    [file_size > 0] no amount of fuel lets it return. *)
Theorem C10_split_file_termination fs cs :
  (0 <= fs -> 1 <= cs ->
   exists fuel chunks,
     forall fuel', (fuel <= fuel')%nat ->
                   _split_file fuel' fs cs = Return chunks) /\
  (1 <= cs -> forall st st',
     split_step fs cs st = Some st' ->
     (distance fs st' < distance fs st)%nat) /\
  (cs <= 0 -> 0 < fs -> forall fuel, _split_file fuel fs cs = OutOfFuel).
Proof.
  repeat split.
  - intros Hfs Hcs.
    exists (S (chunk_count fs cs)), (progression 0 cs (chunk_count fs cs)).
    intros fuel' Hle. apply split_file_result; lia.
  - intros Hcs st st'. now apply split_step_distance.
  - intros Hcs Hfs fuel. now apply split_loop_diverges.
Qed.

Lemma C10_split_file_termination_witness :
  (exists fuel chunks,
     forall fuel', (fuel <= fuel')%nat ->
                   _split_file fuel' 10 4 = Return chunks) /\
  Nat.lt (distance 10 (4, [(0, 4)])) (distance 10 (0, [])) /\
  (forall fuel, _split_file fuel 10 (-4) = OutOfFuel).
Proof.
  repeat split.
  - apply (proj1 (C10_split_file_termination 10 4)); lia.
  - apply (proj1 (proj2 (C10_split_file_termination 10 4)));
      [lia | reflexivity].
  - intros fuel.
    apply (proj2 (proj2 (C10_split_file_termination 10 (-4)))); lia.
Defined.

End PlannerFacts.

(* ===================================================================== *)
(** ** Properties of the worker registry *)

Module RegistryFacts.
Import Registry.

Section DictLemmas.
Variable V : Type.
Implicit Types (d : Dict.dict V) (k : string) (f : V -> V).

Lemma mem_true_get d k :
  Dict.mem k d = true -> exists v, Dict.get d k = Some v.
Proof.
  unfold Dict.mem. destruct (Dict.get d k) as [v|]; [eauto | discriminate].
Qed.

Lemma mem_false_get d k : Dict.mem k d = false -> Dict.get d k = None.
Proof.
  unfold Dict.mem. destruct (Dict.get d k); [discriminate | reflexivity].
Qed.

Lemma alter_keys f d k : Dict.keys (Dict.alter f d k) = Dict.keys d.
Proof.
  induction d as [|[k' v'] d IH]; simpl; [reflexivity|].
  destruct (String.eqb k' k); simpl; [reflexivity | now rewrite IH].
Qed.

Lemma alter_get_same f d k v :
  Dict.get d k = Some v -> Dict.get (Dict.alter f d k) k = Some (f v).
Proof.
  induction d as [|[k' v'] d IH]; simpl; [discriminate|].
  destruct (String.eqb k' k) eqn:E; simpl; rewrite E.
  - now intros [= ->].
  - exact IH.
Qed.

Lemma alter_get_other f d k k' :
  k' <> k -> Dict.get (Dict.alter f d k) k' = Dict.get d k'.
Proof.
  intros Hne. induction d as [|[k0 v0] d IH]; simpl; [reflexivity|].
  destruct (String.eqb_spec k0 k) as [->|Hk]; simpl.
  - destruct (String.eqb_spec k k'); [congruence | reflexivity].
  - destruct (String.eqb k0 k'); [reflexivity | exact IH].
Qed.

(** [alter] rewrites one entry, the first one stored under the key. *)
Lemma alter_split f d k v :
  Dict.get d k = Some v ->
  exists pre post,
    d = pre ++ (k, v) :: post /\ ~ In k (Dict.keys pre) /\
    Dict.alter f d k = pre ++ (k, f v) :: post.
Proof.
  induction d as [|[k' v'] d IH]; simpl; [discriminate|].
  destruct (String.eqb_spec k' k) as [->|Hk].
  - intros [= ->]. exists [], d. simpl. auto.
  - intros Hget. destruct (IH Hget) as (pre & post & -> & Hpre & ->).
    exists ((k', v') :: pre), post. simpl. repeat split; auto.
    intros [?|?]; auto.
Qed.

Lemma set_keys_in d k v k' :
  In k' (Dict.keys (Dict.set d k v)) -> k' = k \/ In k' (Dict.keys d).
Proof.
  induction d as [|[k0 v0] d IH]; simpl.
  - intros [<-|[]]. now left.
  - destruct (String.eqb k0 k); simpl; intros [<-|Hin]; auto.
    destruct (IH Hin); auto.
Qed.

(** Assignment keeps the keys distinct. *)
Lemma set_keys_NoDup d k v :
  NoDup (Dict.keys d) -> NoDup (Dict.keys (Dict.set d k v)).
Proof.
  induction d as [|[k0 v0] d IH]; simpl; intros Hnd.
  - repeat constructor. intros [].
  - inversion Hnd as [|? ? Hnotin Hnd']; subst.
    destruct (String.eqb_spec k0 k) as [->|Hne]; simpl.
    + now constructor.
    + constructor; [|now apply IH].
      intros Hin. apply set_keys_in in Hin as [->|Hin]; auto.
Qed.

End DictLemmas.

(** Both handlers keep the registry a dictionary: its keys stay distinct. *)
Lemma registration_keeps_keys_distinct workers id url :
  NoDup (Dict.keys workers) ->
  NoDup (Dict.keys (fst (handle_worker_registration workers id url))).
Proof. apply set_keys_NoDup. Qed.

Lemma heartbeat_keeps_keys workers id :
  Dict.keys (fst (handle_worker_health_check workers id)) = Dict.keys workers.
Proof.
  unfold handle_worker_health_check. cbn [fst].
  destruct (Dict.mem id workers); [apply alter_keys | reflexivity].
Qed.

Example register_twice :
  fst (handle_worker_registration
         (fst (handle_worker_registration [] "w1" "http://localhost:8001"))
         "w2" "http://localhost:8002")
  = two_workers.
Proof. reflexivity. Qed.

Example heartbeat_known :
  fst (handle_worker_health_check
         [("w1", {| worker_url := "http://a"; status := "active" |});
          ("w2", {| worker_url := "http://b"; status := "down" |})]%string
         "w2")
  = [("w1", {| worker_url := "http://a"; status := "active" |});
     ("w2", {| worker_url := "http://b"; status := "active" |})]%string.
Proof. reflexivity. Qed.

(** C9: a heartbeat for a known id sets the status of that entry to
    [active] and leaves its URL, every other entry and the key order as
    they were; a heartbeat for an unknown id returns the registry
    unchanged, so the id is still unknown afterwards. *)
Theorem C9_heartbeat_frame (workers : registry) (id : string) :
  let workers' := fst (handle_worker_health_check workers id) in
  (Dict.mem id workers = true ->
   exists pre w post,
     workers = pre ++ (id, w) :: post /\
     ~ In id (Dict.keys pre) /\
     workers' =
       pre ++ (id, {| worker_url := worker_url w; status := "active" |})
           :: post /\
     Dict.get workers' id =
       Some {| worker_url := worker_url w; status := "active" |} /\
     Dict.keys workers' = Dict.keys workers /\
     forall id', id' <> id -> Dict.get workers' id' = Dict.get workers id') /\
  (Dict.mem id workers = false ->
   workers' = workers /\ Dict.mem id workers' = false).
Proof.
  unfold handle_worker_health_check. cbn [fst]. split; intros Hmem; rewrite Hmem.
  - destruct (mem_true_get _ _ Hmem) as [w Hget].
    destruct (alter_split (set_status "active") _ _ Hget)
      as (pre & post & Hd & Hpre & Halt).
    exists pre, w, post. repeat split; auto.
    + now apply alter_get_same with (f := set_status "active").
    + apply alter_keys.
    + intros id' Hne. now apply alter_get_other.
  - split; [reflexivity | exact Hmem].
Qed.

Lemma C9_heartbeat_frame_witness :
  (exists pre w post,
     two_workers = pre ++ ("w1"%string, w) :: post /\
     fst (handle_worker_health_check two_workers "w1") =
       pre ++ ("w1"%string,
               {| worker_url := worker_url w; status := "active" |})
           :: post) /\
  fst (handle_worker_health_check two_workers "w9") = two_workers.
Proof.
  split.
  - destruct (proj1 (C9_heartbeat_frame two_workers "w1") eq_refl)
      as (pre & w & post & H1 & _ & H2 & _).
    exists pre, w, post. split; assumption.
  - apply (proj2 (C9_heartbeat_frame two_workers "w9") eq_refl).
Defined.

End RegistryFacts.
(* ===================================================================== *)
(** ** Properties of the arithmetic *)

Module PyNumFacts.
Import PyNum.

(** The model against Python: [0.1 * 3 / 3], [1 / 3], [0 / -5], an integer
    too large for a float. *)
Example float_rounding :
  SFdiv prec emax (SFmul prec emax f_0_1 (float_of_Z 3)) (float_of_Z 3)
  = S754_finite false 7205759403792795 (-56) /\
  int_truediv 1 3 = Return (S754_finite false 6004799503160661 (-54)) /\
  int_truediv 0 (-5) = Return (S754_zero true) /\
  py_mul (PFloat fzero) (PInt (10 ^ 400)) = Raise "OverflowError" /\
  py_truediv (PInt (10 ^ 400)) (PInt 1) = Raise "OverflowError" /\
  py_truediv (PFloat f_100) (PInt 0) = Raise "ZeroDivisionError".
Proof. vm_compute. repeat split. Qed.














(** *** What the operations can raise *)

Lemma bind_overflows A B (m : outcome A) (k : A -> outcome B) :
  returns_or_overflows m -> (forall a, returns_or_overflows (k a)) ->
  returns_or_overflows (bind m k).
Proof. destruct m; cbn; auto. Qed.

Lemma as_float_overflows a : returns_or_overflows (as_float a).
Proof.
  destruct a as [z|f]; cbn; [|exact I].
  unfold float_of_int. now destruct (float_of_Z z).
Qed.



(** With a positive integer divisor a division does not raise
    ZeroDivisionError. *)
Lemma py_truediv_overflows a (y : Z) :
  (0 < y)%Z -> returns_or_overflows (py_truediv a (PInt y)).
Proof.
  intros Hy. destruct a as [x|x]; cbn [py_truediv].
  - unfold int_truediv. destruct (Z.eqb_spec y 0) as [->|_]; [lia|].
    destruct x; cbn [bind]; try exact I;
      match goal with
      | |- context [SFdiv ?p ?e ?u ?v] => destruct (SFdiv p e u v)
      end; cbn; auto.
  - apply bind_overflows; [apply as_float_overflows|]. intros fx.
    apply bind_overflows; [apply as_float_overflows|]. intros fy.
    cbn [num_is_zero]. destruct (Z.eqb_spec y 0) as [->|_]; [lia|]. exact I.
Qed.


End PyNumFacts.

(* ===================================================================== *)
(** ** Properties of the aggregation *)

Module AggregatorFacts.
Import PyNum Aggregator PyNumFacts.
Open Scope Z_scope.

Lemma accumulate_eq tr tt tm r :
  accumulate (tr, tt, tm) r
  = bind (weighted r) (fun p =>
    bind (py_add tt p) (fun t =>
    Return (tr + requests_per_second r, t, tm + malformed_lines r))).
Proof. reflexivity. Qed.

(** The two counters of the loop are exact sums; the third accumulator is
    the running total. *)
Lemma for_each_sums results : forall tr tt tm tr' tt' tm',
  for_each accumulate results (tr, tt, tm) = Return (tr', tt', tm') ->
  tr' = tr + Zsum (map requests_per_second results) /\
  tm' = tm + Zsum (map malformed_lines results) /\
  running_total tt results = Return tt'.
Proof.
  induction results as [|r results IH]; intros tr tt tm tr' tt' tm' H.
  - cbn in H. injection H as <- <- <-. cbn. repeat split; lia.
  - cbn [for_each] in H. rewrite accumulate_eq in H.
    cbn [running_total map].
    destruct (weighted r) as [p| |]; cbn [bind] in *; try discriminate.
    destruct (py_add tt p) as [t1| |]; cbn [bind] in *; try discriminate.
    apply IH in H as (-> & -> & ->). unfold Zsum. cbn [fold_right].
    repeat split; lia.
Qed.




Lemma aggregate_fields results agg :
  aggregate_results results = Return agg ->
  exists t,
    running_total (PInt 0) results = Return t /\
    mean t (Zsum (map requests_per_second results))
    = Return (avg_response_time agg) /\
    requests_per_second agg = Zsum (map requests_per_second results) /\
    malformed_lines agg = Zsum (map malformed_lines results) /\
    error_rate agg = PFloat fzero.
Proof.
  unfold aggregate_results, run. intros H.
  destruct (for_each accumulate results (0, PInt 0, 0))
    as [[[tr tt] tm]| |] eqn:E; cbn [bind] in H; try discriminate.
  apply for_each_sums in E as (-> & -> & Ht).
  rewrite !Z.add_0_l in H.
  destruct (mean tt _) as [avg| |] eqn:Em; cbn [bind] in H; try discriminate.
  injection H as <-. exists tt. cbn. now rewrite Em.
Qed.



Example aggregate_two :
  aggregate_results [sample 100 5 1; sample 200 15 2]
  = Return {| avg_response_time := PFloat (float_of_Z 175);
              requests_per_second := 20;
              error_rate := PFloat fzero;
              malformed_lines := 3 |}.
Proof. vm_compute. reflexivity. Qed.




(** *** Chunks without requests *)







Example zero_request_chunks_skipped :
  aggregate_results [sample 100 5 0; sample 0 0 0; sample 200 15 0]
  = aggregate_results [sample 100 5 0; sample 200 15 0].
Proof. vm_compute. reflexivity. Qed.




End AggregatorFacts.

(* ===================================================================== *)
(** ** Properties of the dispatch loop and of the handler *)

Module DispatchFacts.
Import PyNum Planner Registry Aggregator Dispatch.

Section Loop.
Variable post : string -> chunk_data -> outcome metrics.

Lemma get_nth_NoDup (workers : registry) : forall k id w,
  NoDup (Dict.keys workers) ->
  nth_error workers k = Some (id, w) -> Dict.get workers id = Some w.
Proof.
  induction workers as [|[k0 w0] workers IH]; intros k id w Hnd Hnth.
  - destruct k; discriminate.
  - simpl in Hnd. inversion Hnd as [|? ? Hnotin Hnd']; subst.
    destruct k as [|k]; simpl in Hnth.
    + injection Hnth as -> ->. simpl. now rewrite String.eqb_refl.
    + simpl. destruct (String.eqb_spec k0 id) as [->|Hne].
      * exfalso. apply Hnotin. apply nth_error_In in Hnth.
        change id with (fst (id, w)). now apply in_map.
      * eapply IH; eassumption.
Qed.

(** One iteration with a non-empty registry: the worker at position
    [i mod N] is picked, the request is logged and posted. *)
Lemma dispatch_step workers filepath i chunk rest results log :
  workers <> [] -> NoDup (Dict.keys workers) ->
  exists id w,
    nth_error workers (i mod List.length workers) = Some (id, w) /\
    dispatch_loop post workers filepath i (chunk :: rest) results log =
    let s := request_for filepath id w chunk in
    match post (url s) (payload s) with
    | Return r =>
        dispatch_loop post workers filepath (S i) rest (results ++ [r])
                      (log ++ [s])
    | Raise e => (log ++ [s], Raise e)
    | OutOfFuel => (log ++ [s], OutOfFuel)
    end.
Proof.
  intros Hne Hnd.
  assert (Hlen : List.length workers <> 0%nat)
    by (destruct workers; [congruence | discriminate]).
  assert (Hlt : (i mod List.length workers < List.length workers)%nat)
    by (apply Nat.mod_upper_bound; exact Hlen).
  destruct (nth_error workers (i mod List.length workers))
    as [[id w]|] eqn:Hnth.
  2:{ apply nth_error_None in Hnth. lia. }
  exists id, w. split; [reflexivity|].
  cbn [dispatch_loop]. unfold bindM at 1. unfold lift at 1, py_mod.
  destruct (Nat.eqb_spec (List.length workers) 0); [contradiction|].
  unfold bindM at 1. unfold lift at 1, index, Dict.keys.
  rewrite nth_error_map, Hnth. cbn [option_map fst].
  unfold bindM at 1. unfold lift at 1, lookup.
  rewrite (@get_nth_NoDup _ _ _ _ Hnd Hnth).
  unfold bindM at 1. unfold send at 1. unfold request_for. cbn [url payload].
  destruct (post _ _); reflexivity.
Qed.

(** The loop only ever appends to the log; what it appends follows the
    round-robin rule from index [i] on. *)
Lemma dispatch_loop_log workers filepath :
  workers <> [] -> NoDup (Dict.keys workers) ->
  forall chunks i results log,
  exists sent_now,
    fst (dispatch_loop post workers filepath i chunks results log)
      = log ++ sent_now /\
    (forall j s, nth_error sent_now j = Some s ->
       exists chunk w,
         nth_error chunks j = Some chunk /\
         nth_error workers ((i + j) mod List.length workers)
           = Some (assigned s, w) /\
         s = request_for filepath (assigned s) w chunk) /\
    (forall out,
       snd (dispatch_loop post workers filepath i chunks results log)
         = Return out ->
       List.length sent_now = List.length chunks /\
       List.length out = (List.length results + List.length chunks)%nat) /\
    (forall e,
       snd (dispatch_loop post workers filepath i chunks results log)
         = Raise e ->
       exists s, nth_error sent_now (List.length sent_now - 1) = Some s /\
                 post (url s) (payload s) = Raise e) /\
    (snd (dispatch_loop post workers filepath i chunks results log)
       = OutOfFuel ->
     exists s, post (url s) (payload s) = OutOfFuel).
Proof.
  intros Hne Hnd chunks.
  induction chunks as [|chunk rest IH]; intros i results log.
  - exists []. cbn [dispatch_loop]. unfold ret. cbn [fst snd].
    rewrite app_nil_r. repeat split.
    + intros j s Hj. destruct j; discriminate.
    + injection H as <-. cbn [List.length]. lia.
    + intros e He. discriminate.
    + discriminate.
  - destruct (dispatch_step filepath i chunk rest results log Hne Hnd)
      as (id & w & Hnth & ->).
    cbv zeta.
    set (s0 := request_for filepath id w chunk).
    assert (Hhead : forall tl j s,
              nth_error (s0 :: tl) j = Some s ->
              (forall j' s', nth_error tl j' = Some s' ->
                 exists chunk' w',
                   nth_error rest j' = Some chunk' /\
                   nth_error workers ((S i + j') mod List.length workers)
                     = Some (assigned s', w') /\
                   s' = request_for filepath (assigned s') w' chunk') ->
              exists chunk' w',
                nth_error (chunk :: rest) j = Some chunk' /\
                nth_error workers ((i + j) mod List.length workers)
                  = Some (assigned s, w') /\
                s = request_for filepath (assigned s) w' chunk').
    { intros tl j s Hj Htl. destruct j as [|j]; cbn [nth_error] in *.
      - injection Hj as <-. exists chunk, w. rewrite Nat.add_0_r.
        repeat split; assumption.
      - destruct (Htl j s Hj) as (chunk' & w' & H1 & H2 & H3).
        exists chunk', w'. rewrite Nat.add_succ_r. auto. }
    destruct (post (url s0) (payload s0)) as [r|e|] eqn:Hpost.
    + destruct (IH (S i) (results ++ [r]) (log ++ [s0]))
        as (tl & Hlog & Hrr & Hret & Herr & Hfuel).
      exists (s0 :: tl). repeat split.
      * rewrite Hlog, <- app_assoc. reflexivity.
      * intros j s Hj. eapply Hhead; eassumption.
      * apply Hret in H. cbn [List.length]. lia.
      * apply Hret in H. rewrite length_app in H.
        cbn [List.length] in *. lia.
      * intros e He. destruct (Herr e He) as (s & Hs & Hp).
        exists s. split; [|exact Hp].
        cbn [List.length]. destruct tl as [|s1 tl]; [discriminate|].
        cbn [List.length] in *.
        replace (S (S (List.length tl)) - 1)%nat
          with (S (S (List.length tl) - 1)) by lia.
        exact Hs.
      * exact Hfuel.
    + exists [s0]. cbn [fst snd]. repeat split.
      * intros j s Hj. eapply Hhead; [eassumption|].
        intros j' s' Hj'. destruct j'; discriminate.
      * discriminate.
      * discriminate.
      * intros e' [= <-]. exists s0. split; [reflexivity | exact Hpost].
      * discriminate.
    + exists [s0]. cbn [fst snd]. repeat split.
      * intros j s Hj. eapply Hhead; [eassumption|].
        intros j' s' Hj'. destruct j'; discriminate.
      * discriminate.
      * discriminate.
      * discriminate.
      * intros _. exists s0. exact Hpost.
Qed.

(** C8: with a non-empty registry of [N] workers, the [i]-th request of
    the loop is for the [i]-th chunk and goes to the worker at position
    [i mod N] of the registry's keys in insertion order, at that worker's
    URL; the choice depends on [i] and the registry only.  When every
    worker call returns, the loop returns, and when it returns every chunk
    was sent. *)
Theorem C8_round_robin (workers : registry) (filepath : json)
  (chunks : list Planner.chunk) :
  workers <> [] -> NoDup (Dict.keys workers) ->
  let N := List.length workers in
  let run := dispatch_loop post workers filepath 0 chunks [] [] in
  (forall i s, nth_error (fst run) i = Some s ->
     nth_error (Dict.keys workers) (i mod N) = Some (assigned s) /\
     exists chunk w,
       nth_error chunks i = Some chunk /\
       nth_error workers (i mod N) = Some (assigned s, w) /\
       s = request_for filepath (assigned s) w chunk) /\
  (forall results, snd run = Return results ->
     List.length (fst run) = List.length chunks /\
     List.length results = List.length chunks) /\
  ((forall u b, returns (post u b)) -> returns (snd run)).
Proof.
  intros Hne Hnd N run.
  destruct (dispatch_loop_log filepath Hne Hnd chunks 0 [] [])
    as (sent_now & Hlog & Hrr & Hret & Herr & Hfuel).
  fold run in Hlog, Hret, Herr, Hfuel. cbn [app] in Hlog.
  repeat split.
  - rewrite Hlog in H. destruct (Hrr i s H) as (chunk & w & _ & Hw & _).
    cbn [Nat.add] in Hw. unfold Dict.keys. fold N in Hw.
    now rewrite nth_error_map, Hw.
  - rewrite Hlog in H. destruct (Hrr i s H) as (chunk & w & H1 & H2 & H3).
    exists chunk, w. auto.
  - rewrite Hlog. now destruct (Hret _ H).
  - now destruct (Hret _ H).
  - intros Hpost. destruct (snd run) as [r|e|] eqn:E.
    + now exists r.
    + destruct (Herr e eq_refl) as (s & _ & Hs).
      destruct (Hpost (url s) (payload s)) as [r Hr]. congruence.
    + destruct (Hfuel eq_refl) as (s & Hs).
      destruct (Hpost (url s) (payload s)) as [r Hr]. congruence.
Qed.

End Loop.

Example round_robin_ids :
  map assigned
      (fst (dispatch_loop steady_worker two_workers (JStr "app.log") 0
              [(0, 10); (10, 10); (20, 10)]%Z [] []))
  = ["w1"; "w2"; "w1"]%string.
Proof. reflexivity. Qed.

(** Were [os] bound, a request over two workers and ten chunks would
    aggregate fifty requests with an average of 100. *)
Example with_os_end_to_end :
  match snd (handle_process_chunk steady_worker
               ("os"%string :: coordinator_globals) size_100 20
               two_workers (Some good_body) []) with
  | Return m =>
      requests_per_second m = 50%Z /\ avg_response_time m = PFloat f_100 /\
      malformed_lines m = 0%Z
  | _ => False
  end.
Proof. vm_compute. repeat split. Qed.

Lemma C8_round_robin_witness :
  two_workers <> [] /\ NoDup (Dict.keys two_workers) /\
  nth_error (Dict.keys two_workers) (1 mod 2) = Some "w2"%string.
Proof.
  assert (Hne : two_workers <> []) by discriminate.
  assert (Hnd : NoDup (Dict.keys two_workers)).
  { repeat constructor; simpl; intuition discriminate. }
  split; [exact Hne|]. split; [exact Hnd|].
  exact (proj1 (proj1 (@C8_round_robin steady_worker two_workers
                         (JStr "app.log") [(0, 10); (10, 10); (20, 10)]%Z
                         Hne Hnd)
                 1%nat
                 (request_for (JStr "app.log") "w2"
                    {| worker_url := "http://localhost:8002";
                       status := "active" |} (10, 10)%Z)
                 eq_refl)).
Defined.

(** C1 (as stated, refuted): for the body [{}] the handler fails with
    KeyError at [data["filepath"]], before [os] is evaluated. *)
Lemma C1_counterexample :
  snd (handle_process_chunk steady_worker coordinator_globals size_100 20
         two_workers (Some (JDict [])) [])
    = Raise "KeyError" /\
  ~ raises "NameError"
      (snd (handle_process_chunk steady_worker coordinator_globals size_100
              20 two_workers (Some (JDict [])) [])).
Proof. split; [reflexivity | discriminate]. Qed.

Lemma getitem_not_out_of_fuel data key : getitem data key <> OutOfFuel.
Proof.
  unfold getitem. destruct data; try discriminate.
  destruct (Dict.get d key); discriminate.
Qed.

Lemma bind_lift_return A B (a : A) (k : A -> M B) log :
  bindM (lift (Return a)) k log = k a log.
Proof. reflexivity. Qed.

Lemma bind_lift_raise A B (e : string) (k : A -> M B) log :
  bindM (lift (Raise e)) k log = (log, Raise e).
Proof. reflexivity. Qed.

(** Closes the first three parts of a goal about a run that stopped in an
    exception with its log untouched. *)
Ltac ends_in_exception :=
  cbn [fst snd];
  split; [reflexivity|];
  split; [eexists; reflexivity|];
  split; [intros [? ?]; discriminate|].

(** C1 (amended): whatever the request body, the handler ends in an
    exception without sending any chunk, so it never returns an
    aggregate; for every body that is a JSON object with the keys
    [filepath] and [chunk_size] that exception is NameError, raised where
    [os] is evaluated. *)
Theorem C1_process_chunk_never_succeeds
  (post : string -> chunk_data -> outcome metrics)
  (getsize : json -> outcome Z) (fuel : nat) (workers : registry)
  (body : option json) (log : list sent) :
  let run :=
    handle_process_chunk post coordinator_globals getsize fuel workers
                         body log in
  fst run = log /\
  (exists exc, snd run = Raise exc) /\
  ~ returns (snd run) /\
  (forall data fp cs,
     body = Some data ->
     getitem data "filepath" = Return fp ->
     getitem data "chunk_size" = Return cs ->
     snd run = Raise "NameError").
Proof.
  cbv zeta. unfold handle_process_chunk.
  assert (Hos : load_global coordinator_globals "os" = Raise "NameError")
    by reflexivity.
  destruct body as [data|]; cbn [request_json].
  2:{ rewrite bind_lift_raise. ends_in_exception.
      intros data fp cs [=]. }
  rewrite bind_lift_return.
  destruct (getitem data "filepath") as [fp|e|] eqn:Hfp.
  2:{ rewrite bind_lift_raise. ends_in_exception.
      intros data' fp cs [= <-] Hfp'. congruence. }
  2:{ exfalso. now apply (getitem_not_out_of_fuel data "filepath"). }
  rewrite bind_lift_return.
  destruct (getitem data "chunk_size") as [cs|e|] eqn:Hcs.
  2:{ rewrite bind_lift_raise. ends_in_exception.
      intros data' fp' cs [= <-] _ Hcs'. congruence. }
  2:{ exfalso. now apply (getitem_not_out_of_fuel data "chunk_size"). }
  rewrite bind_lift_return, Hos, bind_lift_raise.
  ends_in_exception. reflexivity.
Qed.

Lemma C1_process_chunk_never_succeeds_witness :
  snd (handle_process_chunk steady_worker coordinator_globals size_100 20
         two_workers (Some good_body) [])
    = Raise "NameError".
Proof.
  apply (proj2 (proj2 (proj2
    (C1_process_chunk_never_succeeds steady_worker size_100 20 two_workers
       (Some good_body) []))))
    with (data := good_body) (fp := JStr "app.log") (cs := JInt 10);
    reflexivity.
Defined.




End DispatchFacts.

(* ===================================================================== *)
(** ** Properties of the worker's line parser *)

Module WorkerFacts.
Import Worker.
Open Scope Z_scope.

Section WithUnicode.
Variable db : unicode_db.

Example int_123 : int db (L "123") = Return 123.
Proof. reflexivity. Qed.

Example match_full_line :
  re_match db log_pattern
    (L "2024-01-01 12:00:00 INFO Request processed in 123ms")
  = Some [L "2024-01-01 12:00:00"; L "INFO"; L "123"].
Proof. vm_compute. reflexivity. Qed.

Example match_ignores_tail :
  re_match db log_pattern (L "a b c Request processed in 7ms and more")
  = Some [L "a b"; L "c"; L "7"].
Proof. vm_compute. reflexivity. Qed.

Example no_match_without_number : re_match db log_pattern
    (L "a b c Request processed in ms") = None.
Proof. vm_compute. reflexivity. Qed.

(** *** The matcher against the meaning of the pattern *)

Lemma strip_prefix_spec l : forall s rest,
  strip_prefix l s = Some rest <-> s = (l ++ rest)%list.
Proof.
  induction l as [|a l IH]; intros s rest; simpl.
  - split; [now intros [= ->] | now intros ->].
  - destruct s as [|b s].
    + split; discriminate.
    + destruct (N.eqb_spec a b) as [->|Hne].
      * rewrite IH. split; [now intros -> | now intros [= ->]].
      * split; [discriminate | intros [= E _]; congruence].
Qed.

Lemma plus_runs_spec c : forall s p rest,
  In (p, rest) (plus_runs db c s) <->
  p <> [] /\ Forall (fun a => in_class db c a = true) p /\ s = (p ++ rest)%list.
Proof.
  induction s as [|a s IH]; intros p rest; simpl.
  - split; [contradiction|].
    intros (Hp & _ & E). destruct p; [congruence | discriminate].
  - destruct (in_class db c a) eqn:Ha.
    + rewrite in_app_iff, in_map_iff. split.
      * intros [((p' & rest') & [= <- <-] & Hin) | [[= <- <-] | []]].
        -- apply IH in Hin as (_ & Hall & ->). cbn [fst snd].
           repeat split; [discriminate | now constructor].
        -- repeat split; [discriminate | now repeat constructor].
      * intros (Hp & Hall & E).
        destruct p as [|b p]; [congruence|].
        injection E as <- ->. inversion Hall as [|? ? _ Hall']; subst.
        destruct p as [|b' p].
        -- right. left. reflexivity.
        -- left. exists (b' :: p, rest). split; [reflexivity|].
           apply IH. repeat split; [discriminate | exact Hall'].
    + split; [contradiction|].
      intros (Hp & Hall & E). destruct p as [|b p]; [congruence|].
      injection E as <- ->. inversion Hall; congruence.
Qed.

Lemma parses_spec r : forall s c g rest,
  In (c, g, rest) (parses db r s) <-> Matches db r c g /\ s = (c ++ rest)%list.
Proof.
  induction r as [l|cls|r1 IH1 r2 IH2|r IH]; intros s c g rest;
    cbn [parses].
  - destruct (strip_prefix l s) as [rest'|] eqn:E.
    + apply strip_prefix_spec in E. subst s. simpl. split.
      * intros [[= <- <- <-]|[]]. split; [constructor | reflexivity].
      * intros [HM E]. inversion HM; subst.
        apply app_inv_head in E. subst. now left.
    + split; [contradiction|]. intros [HM Es].
      assert (c = l) by (inversion HM; reflexivity). subst c.
      apply strip_prefix_spec in Es. congruence.
  - rewrite in_map_iff. split.
    + intros ((p & rest') & [= <- <- <-] & Hin).
      apply plus_runs_spec in Hin as (Hp & Hall & ->). cbn [fst snd].
      split; [now constructor | reflexivity].
    + intros [HM ->]. inversion HM; subst.
      exists (c, rest). split; [reflexivity|].
      apply plus_runs_spec. auto.
  - rewrite in_flat_map. split.
    + intros (((c1 & g1) & rest1) & Hin1 & Hin2).
      apply in_map_iff in Hin2 as (((c2 & g2) & rest2) & [= <- <- <-] & Hin2).
      apply IH1 in Hin1 as [HM1 ->]. apply IH2 in Hin2 as [HM2 ->].
      split; [now constructor | now rewrite app_assoc].
    + intros [HM ->]. inversion HM; subst.
      exists (s1, g1, (s2 ++ rest)%list). split.
      * apply IH1. split; [assumption | now rewrite app_assoc].
      * apply in_map_iff. exists (s2, g2, rest). split; [reflexivity|].
        apply IH2. split; [assumption | reflexivity].
  - rewrite in_map_iff. split.
    + intros (((c' & g') & rest') & [= <- <- <-] & Hin).
      apply IH in Hin as [HM ->]. split; [now constructor | reflexivity].
    + intros [HM ->]. inversion HM; subst.
      exists (c, g0, rest). split; [reflexivity|].
      apply IH. split; [assumption | reflexivity].
Qed.

(** *** What the log pattern accepts *)

Lemma token_Matches t : token db t <-> Matches db (Plus NonSpace) t [].
Proof.
  unfold token. split.
  - intros [Hne Hall]. constructor; [exact Hne|].
    eapply Forall_impl; [|exact Hall].
    intros a Ha. cbn [in_class]. now rewrite Ha.
  - intros HM. inversion HM as [|c s Hne Hall| |]; subst.
    split; [exact Hne|].
    eapply Forall_impl; [|exact Hall].
    intros a Ha. cbn [in_class] in Ha. now destruct (is_space db a).
Qed.

Lemma number_Matches d : number db d <-> Matches db (Plus Digit) d [].
Proof.
  unfold number. split.
  - intros [Hne Hall]. now constructor.
  - intros HM. inversion HM; subst. now split.
Qed.

Lemma log_pattern_complete t1 t2 t3 d :
  token db t1 -> token db t2 -> token db t3 -> number db d ->
  Matches db log_pattern
    (t1 ++ L " " ++ t2 ++ L " " ++ t3
        ++ L " Request processed in " ++ d ++ L "ms")%list
    [(t1 ++ L " " ++ t2)%list; t3; d].
Proof.
  intros H1 H2 H3 Hd.
  apply token_Matches in H1, H2, H3. apply number_Matches in Hd.
  pose proof
    (MCat (MGroup (MCat H1 (MCat (MLit db (L " ")) H2)))
       (MCat (MLit db (L " "))
          (MCat (MGroup H3)
             (MCat (MLit db (L " Request processed in "))
                (MCat (MGroup Hd) (MLit db (L "ms"))))))) as HM.
  repeat rewrite <- app_assoc in HM. exact HM.
Qed.

Lemma log_pattern_sound c g :
  Matches db log_pattern c g ->
  exists t1 t2 t3 d,
    token db t1 /\ token db t2 /\ token db t3 /\ number db d /\
    c = (t1 ++ L " " ++ t2 ++ L " " ++ t3
            ++ L " Request processed in " ++ d ++ L "ms")%list /\
    g = [(t1 ++ L " " ++ t2)%list; t3; d].
Proof.
  unfold log_pattern. intros HM.
  repeat match goal with
         | H : Matches db (Cat _ _) _ _ |- _ => inversion H; clear H; subst
         | H : Matches db (Group _) _ _ |- _ => inversion H; clear H; subst
         | H : Matches db (Lit _) _ _ |- _ => inversion H; clear H; subst
         end.
  match goal with
  | Ha : Matches db (Plus NonSpace) ?a _, Hb : Matches db (Plus NonSpace) ?b _,
    Hc : Matches db (Plus NonSpace) ?c _, Hd : Matches db (Plus Digit) ?d _
    |- context [((?a ++ _ ++ ?b) ++ _ ++ ?c ++ _)%list] =>
      inversion Ha; inversion Hb; inversion Hc; inversion Hd; subst;
      exists a, b, c, d
  end.
  repeat split;
    try (apply token_Matches; constructor; assumption);
    try (apply number_Matches; constructor; assumption).
  now repeat rewrite <- app_assoc.
Qed.

(** A run of characters satisfying [P], ended by one that does not, is
    determined by the text it starts. *)
Lemma split_unique (P : char -> Prop) : forall a a' x x' r r',
  Forall P a -> Forall P a' -> ~ P x -> ~ P x' ->
  (a ++ x :: r = a' ++ x' :: r')%list ->
  a = a' /\ r = r'.
Proof.
  induction a as [|b a IH]; intros [|b' a'] x x' r r' Ha Ha' Hx Hx' E;
    cbn [app] in E.
  - injection E as _ ->. auto.
  - injection E as -> _. inversion Ha'; contradiction.
  - injection E as -> _. inversion Ha; contradiction.
  - injection E as -> E. inversion Ha; inversion Ha'; subst.
    destruct (IH a' x x' r r') as [-> ->]; auto.
Qed.

Lemma shape_unique line t1 t2 t3 d rest t1' t2' t3' d' rest' :
  request_shape db line t1 t2 t3 d rest ->
  request_shape db line t1' t2' t3' d' rest' ->
  t1 = t1' /\ t2 = t2' /\ t3 = t3' /\ d = d' /\ rest = rest'.
Proof.
  intros ([_ H1] & [_ H2] & [_ H3] & [_ Hd] & ->)
         ([_ H1'] & [_ H2'] & [_ H3'] & [_ Hd'] & E).
  assert (Hsp : ~ is_space db 32%N = false) by discriminate.
  assert (Hm : ~ is_digit db 109%N = true) by discriminate.
  destruct (@split_unique (fun a => is_space db a = false)
              _ _ _ _ _ _ H1 H1' Hsp Hsp E) as [<- E2].
  destruct (@split_unique (fun a => is_space db a = false)
              _ _ _ _ _ _ H2 H2' Hsp Hsp E2) as [<- E3].
  destruct (@split_unique (fun a => is_space db a = false)
              _ _ _ _ _ _ H3 H3' Hsp Hsp E3) as [<- E4].
  assert (E5 : (d ++ L "ms" ++ rest = d' ++ L "ms" ++ rest')%list)
    by (apply (app_inv_head (L "Request processed in ")); exact E4).
  destruct (@split_unique (fun a => is_digit db a = true)
              _ _ _ _ _ _ Hd Hd' Hm Hm E5) as [<- E6].
  injection E6 as <-. auto.
Qed.

Lemma parses_shape line c g rest :
  In (c, g, rest) (parses db log_pattern line) ->
  exists t1 t2 t3 d,
    request_shape db line t1 t2 t3 d rest /\
    g = [(t1 ++ L " " ++ t2)%list; t3; d].
Proof.
  intros Hin. apply parses_spec in Hin as [HM ->].
  apply log_pattern_sound in HM
    as (t1 & t2 & t3 & d & H1 & H2 & H3 & Hd & -> & ->).
  exists t1, t2, t3, d. split; [|reflexivity].
  unfold request_shape. repeat (split; [assumption|]).
  now repeat rewrite <- app_assoc.
Qed.

Lemma re_match_shape line t1 t2 t3 d rest :
  request_shape db line t1 t2 t3 d rest ->
  re_match db log_pattern line = Some [(t1 ++ L " " ++ t2)%list; t3; d].
Proof.
  intros Hshape. unfold re_match.
  destruct (parses db log_pattern line) as [|[[c g] r] tl] eqn:E.
  - exfalso.
    destruct Hshape as (H1 & H2 & H3 & Hd & Hline).
    pose proof (log_pattern_complete H1 H2 H3 Hd) as HM.
    eassert (Hin : In (_, _, rest) (parses db log_pattern line)).
    { apply parses_spec. split; [exact HM|].
      rewrite Hline. now repeat rewrite <- app_assoc. }
    rewrite E in Hin. contradiction.
  - assert (Hin : In (c, g, r) (parses db log_pattern line))
      by (rewrite E; now left).
    apply parses_shape in Hin as (u1 & u2 & u3 & e & Hshape' & ->).
    destruct (shape_unique Hshape Hshape') as (<- & <- & <- & <- & _).
    reflexivity.
Qed.

Lemma re_match_Some line groups :
  re_match db log_pattern line = Some groups ->
  exists t1 t2 t3 d rest, request_shape db line t1 t2 t3 d rest.
Proof.
  unfold re_match.
  destruct (parses db log_pattern line) as [|[[c g] r] tl] eqn:E;
    [discriminate|].
  intros _.
  assert (Hin : In (c, g, r) (parses db log_pattern line))
    by (rewrite E; now left).
  apply parses_shape in Hin as (t1 & t2 & t3 & d & Hshape & _).
  eauto 6.
Qed.

Lemma token_intro t :
  t <> [] -> forallb (fun a => negb (is_space db a)) t = true -> token db t.
Proof.
  intros Hne Hall. split; [exact Hne|].
  apply Forall_forall. intros a Ha.
  rewrite forallb_forall in Hall. specialize (Hall a Ha).
  now destruct (is_space db a).
Qed.

Lemma number_intro d :
  d <> [] -> forallb (is_digit db) d = true -> number db d.
Proof.
  intros Hne Hall. split; [exact Hne|].
  apply Forall_forall. now apply forallb_forall.
Qed.

Lemma decimal_value_snoc d c :
  decimal_value db (d ++ [c]) = 10 * decimal_value db d + digit_value db c.
Proof. unfold decimal_value. now rewrite fold_left_app. Qed.

(** A line of the shape of a request is handed to [int]. *)
Lemma process_line_request st line t1 t2 t3 d rest :
  request_shape db line t1 t2 t3 d rest ->
  process_line db st line
  = bind (int db d) (fun ms =>
    Return {| total_time := total_time st + ms;
              total_requests := total_requests st + 1;
              malformed := malformed st |}).
Proof.
  intros Hshape. unfold process_line. now rewrite (re_match_shape Hshape).
Qed.

Lemma int_short d :
  (List.length d <= int_max_str_digits)%nat ->
  int db d = Return (decimal_value db d).
Proof.
  intros Hlen. unfold int.
  destruct (Nat.ltb_spec int_max_str_digits (List.length d)); [lia|].
  reflexivity.
Qed.

Lemma int_long d :
  (int_max_str_digits < List.length d)%nat -> int db d = Raise "ValueError".
Proof.
  intros Hlen. unfold int.
  destruct (Nat.ltb_spec int_max_str_digits (List.length d)); [|lia].
  reflexivity.
Qed.

(** C2 (amended): a line is a matched request exactly when it starts with
    three whitespace-free tokens separated by single spaces, then
    [ Request processed in ], a run of decimal digits and [ms], whatever
    follows (white space and decimal digits in the sense of Unicode).  Such
    a line with at most 4300 digits adds 1 to the request counter and the
    number to the time sum and leaves the malformed counter alone; with
    more digits [int] refuses the number and the scan ends in ValueError;
    any other line adds 1 to the malformed counter and leaves the other two
    alone.  Every line is of one kind or the other. *)
Theorem C2_line_classification (st : counters) (line : text) :
  (forall t1 t2 t3 d rest,
     request_shape db line t1 t2 t3 d rest ->
     (List.length d <= int_max_str_digits)%nat ->
     process_line db st line =
       Return {| total_time := total_time st + decimal_value db d;
                 total_requests := total_requests st + 1;
                 malformed := malformed st |}) /\
  (forall t1 t2 t3 d rest,
     request_shape db line t1 t2 t3 d rest ->
     (int_max_str_digits < List.length d)%nat ->
     process_line db st line = Raise "ValueError") /\
  ((forall t1 t2 t3 d rest, ~ request_shape db line t1 t2 t3 d rest) ->
   process_line db st line =
     Return {| total_time := total_time st;
               total_requests := total_requests st;
               malformed := malformed st + 1 |}) /\
  ((exists t1 t2 t3 d rest, request_shape db line t1 t2 t3 d rest) \/
   (forall t1 t2 t3 d rest, ~ request_shape db line t1 t2 t3 d rest)).
Proof.
  split; [|split; [|split]].
  - intros t1 t2 t3 d rest Hshape Hlen.
    rewrite (process_line_request st Hshape).
    now rewrite int_short by exact Hlen.
  - intros t1 t2 t3 d rest Hshape Hlen.
    rewrite (process_line_request st Hshape).
    now rewrite int_long by exact Hlen.
  - intros Hnone. unfold process_line.
    destruct (re_match db log_pattern line) as [groups|] eqn:E;
      [|reflexivity].
    apply re_match_Some in E as (t1 & t2 & t3 & d & rest & Hshape).
    exfalso. exact (Hnone _ _ _ _ _ Hshape).
  - destruct (re_match db log_pattern line) as [groups|] eqn:E.
    + left. exact (@re_match_Some _ _ E).
    + right. intros t1 t2 t3 d rest Hshape.
      rewrite (re_match_shape Hshape) in E. discriminate.
Qed.

End WithUnicode.

(** Settles the parts of a shape on concrete text by evaluation. *)
Ltac shape_parts :=
  repeat match goal with
         | |- _ /\ _ => split
         | |- token _ _ => apply token_intro; [discriminate | reflexivity]
         | |- number _ _ => apply number_intro; [discriminate | reflexivity]
         end;
  try reflexivity.

(** C2 (as stated, refuted): a line with two tokens before the fixed text
    has the shape the claim describes, yet the parser counts it as
    malformed and adds nothing to the request counter, whatever the
    Unicode database holds. *)
Lemma C2_counterexample :
  two_token_shape ascii_only two_token_line (L "a") (L "b") (L "123") /\
  process_line ascii_only initial two_token_line
    = Return {| total_time := 0; total_requests := 0; malformed := 1 |} /\
  (forall db,
     two_token_shape db two_token_line (L "a") (L "b") (L "123") /\
     process_line db initial two_token_line
     = Return {| total_time := 0; total_requests := 0; malformed := 1 |}).
Proof.
  split; [|split; [|intros db; split]].
  - unfold two_token_shape. shape_parts.
  - vm_compute. reflexivity.
  - unfold two_token_shape. shape_parts.
  - vm_compute. reflexivity.
Qed.

Lemma C2_line_classification_witness :
  request_shape ascii_only sample_line
    (L "2024-01-01") (L "12:00:00") (L "INFO") (L "123") [] /\
  (List.length (L "123") <= int_max_str_digits)%nat /\
  process_line ascii_only initial sample_line
    = Return {| total_time := 0 + decimal_value ascii_only (L "123");
                total_requests := 0 + 1;
                malformed := 0 |}.
Proof.
  assert (Hshape : request_shape ascii_only sample_line
            (L "2024-01-01") (L "12:00:00") (L "INFO") (L "123") []).
  { unfold request_shape. shape_parts. }
  assert (Hlen : (List.length (L "123") <= int_max_str_digits)%nat).
  { apply Nat.leb_le. vm_compute. reflexivity. }
  split; [exact Hshape|]. split; [exact Hlen|].
  exact (proj1 (C2_line_classification ascii_only initial sample_line)
           (L "2024-01-01") (L "12:00:00") (L "INFO") (L "123") []
           Hshape Hlen).
Defined.

End WorkerFacts.

(* ===================================================================== *)
(** ** Properties of the registry over the life of a coordinator *)

Module LifecycleFacts.
Import Registry Lifecycle.

Section DictSet.
Variable V : Type.
Implicit Types (d : Dict.dict V) (k : string) (v : V).

Lemma set_get_same d k v : Dict.get (Dict.set d k v) k = Some v.
Proof.
  induction d as [|[k0 v0] d IH]; simpl.
  - now rewrite String.eqb_refl.
  - destruct (String.eqb k0 k) eqn:E; simpl; rewrite E; auto.
Qed.

Lemma set_get_other d k v k' :
  k' <> k -> Dict.get (Dict.set d k v) k' = Dict.get d k'.
Proof.
  intros Hne. induction d as [|[k0 v0] d IH]; simpl.
  - destruct (String.eqb_spec k k'); [congruence | reflexivity].
  - destruct (String.eqb_spec k0 k) as [->|Hk]; simpl.
    + destruct (String.eqb_spec k k'); [congruence | reflexivity].
    + destruct (String.eqb k0 k'); [reflexivity | exact IH].
Qed.

Lemma mem_keys d k : Dict.mem k d = existsb (String.eqb k) (Dict.keys d).
Proof.
  unfold Dict.mem. induction d as [|[k0 v0] d IH]; simpl; [reflexivity|].
  rewrite (String.eqb_sym k k0).
  destruct (String.eqb k0 k); [reflexivity | exact IH].
Qed.

Lemma set_keys d k v :
  Dict.keys (Dict.set d k v) =
  if Dict.mem k d then Dict.keys d else (Dict.keys d ++ [k])%list.
Proof.
  unfold Dict.mem. induction d as [|[k0 v0] d IH]; simpl; [reflexivity|].
  destruct (String.eqb k0 k); simpl; [reflexivity|].
  rewrite IH. now destruct (Dict.get d k).
Qed.

Lemma alter_fixed (f : V -> V) d k :
  Forall (fun kv => f (snd kv) = snd kv) d -> Dict.alter f d k = d.
Proof.
  induction 1 as [|[k0 v0] d Hf _ IH]; simpl; [reflexivity|].
  simpl in Hf. destruct (String.eqb k0 k); congruence.
Qed.

Lemma set_Forall (P : V -> Prop) d k v :
  P v -> Forall (fun kv => P (snd kv)) d ->
  Forall (fun kv => P (snd kv)) (Dict.set d k v).
Proof.
  intros Hv. induction 1 as [|[k0 v0] d Hf Hd IH]; simpl.
  - now repeat constructor.
  - destruct (String.eqb k0 k); constructor; auto.
Qed.

End DictSet.

Lemma heartbeat_fixed workers id :
  all_active workers ->
  fst (handle_worker_health_check workers id) = workers.
Proof.
  intros Hall. unfold handle_worker_health_check. cbn [fst].
  destruct (Dict.mem id workers); [|reflexivity].
  apply alter_fixed. eapply Forall_impl; [|exact Hall].
  intros [k [u st]] Hst. simpl in *. unfold set_status. simpl. congruence.
Qed.

Lemma handle_all_active workers r :
  all_active workers -> all_active (handle workers r).
Proof.
  intros Hall. destruct r as [id u|id]; cbn [handle].
  - unfold handle_worker_registration. cbn [fst].
    apply (@set_Forall _ (fun w => status w = "active"%string));
      [reflexivity | exact Hall].
  - now rewrite heartbeat_fixed.
Qed.

Lemma handle_keys_distinct workers r :
  NoDup (Dict.keys workers) -> NoDup (Dict.keys (handle workers r)).
Proof.
  intros Hnd. destruct r as [id u|id]; cbn [handle].
  - now apply RegistryFacts.registration_keeps_keys_distinct.
  - now rewrite RegistryFacts.heartbeat_keeps_keys.
Qed.

Lemma handle_keys workers r :
  Dict.keys (handle workers r) = note_id (Dict.keys workers) r.
Proof.
  destruct r as [id u|id]; cbn [handle note_id].
  - unfold handle_worker_registration. cbn [fst].
    now rewrite set_keys, mem_keys.
  - apply RegistryFacts.heartbeat_keeps_keys.
Qed.

(** An invariant of [handle] holds of every registry the coordinator
    reaches. *)
Lemma serve_invariant (P : registry -> Prop) :
  P [] -> (forall workers r, P workers -> P (handle workers r)) ->
  forall requests, P (serve requests).
Proof.
  intros Hnil Hstep requests. unfold serve.
  assert (H : forall start, P start -> P (fold_left handle requests start)).
  { induction requests as [|r requests IH]; intros start Hs; simpl; auto. }
  now apply H.
Qed.

Lemma serve_all_active requests : all_active (serve requests).
Proof.
  apply serve_invariant; [constructor | apply handle_all_active].
Qed.

Lemma serve_app rs1 rs2 :
  serve (rs1 ++ rs2) = fold_left handle rs2 (serve rs1).
Proof. unfold serve. apply fold_left_app. Qed.

Example serve_three :
  serve [Register "w1" "http://localhost:8001"; Heartbeat "w7";
         Register "w2" "http://localhost:8002"; Heartbeat "w1"]%string
  = two_workers.
Proof. reflexivity. Qed.

(** X1: registering a worker stores its URL with status [active] under its
    id and leaves every other worker's entry as it was; a new id goes to
    the end of the key order, a known id keeps its place. *)
Theorem X1_register_lookup (workers : registry) (id url : string) :
  let workers' := fst (handle_worker_registration workers id url) in
  Dict.get workers' id = Some {| worker_url := url; status := "active" |} /\
  (forall id', id' <> id -> Dict.get workers' id' = Dict.get workers id') /\
  Dict.keys workers' =
    (if Dict.mem id workers then Dict.keys workers
     else Dict.keys workers ++ [id])%list.
Proof.
  unfold handle_worker_registration. cbn [fst]. repeat split.
  - apply set_get_same.
  - intros id' Hne. now apply set_get_other.
  - apply set_keys.
Qed.

(** X2: in every registry the coordinator can reach from the empty one by
    registrations and heartbeats, the worker ids are distinct and every
    status is [active]: nothing ever demotes a worker. *)
Theorem X2_reachable_registry (requests : list request) :
  NoDup (Dict.keys (serve requests)) /\
  Forall (fun kv => status (snd kv) = "active"%string) (serve requests).
Proof.
  split.
  - apply (serve_invariant (fun w => NoDup (Dict.keys w)));
      [constructor | intros w r; apply handle_keys_distinct].
  - apply serve_all_active.
Qed.

(** X3: the key order of the registry, which the round-robin uses, is the
    order in which the worker ids were first registered; registering an id
    again and heartbeats do not move anything. *)
Theorem X3_key_order (requests : list request) :
  Dict.keys (serve requests) = first_registered requests.
Proof.
  unfold serve, first_registered.
  assert (H : forall start : registry,
             Dict.keys (fold_left handle requests start) =
             fold_left note_id requests (Dict.keys start)).
  { induction requests as [|r requests IH]; intros start; simpl.
    - reflexivity.
    - now rewrite IH, handle_keys. }
  apply H.
Qed.

(** X4: heartbeats never change the registry of a running coordinator:
    dropping one heartbeat from the requests served leaves the registry
    the same. *)
Theorem X4_heartbeat_has_no_effect (before after : list request)
  (id : string) :
  serve (before ++ Heartbeat id :: after) = serve (before ++ after).
Proof.
  rewrite !serve_app. cbn [fold_left handle].
  now rewrite heartbeat_fixed by apply serve_all_active.
Qed.

Lemma handle_get_kept workers r id w :
  status w = "active"%string ->
  registers id r = false ->
  Dict.get workers id = Some w -> Dict.get (handle workers r) id = Some w.
Proof.
  intros Hst Hr Hget. destruct r as [id' u|id']; cbn [handle registers] in *.
  - unfold handle_worker_registration. cbn [fst].
    rewrite set_get_other; [exact Hget|].
    intros ->. now rewrite String.eqb_refl in Hr.
  - unfold handle_worker_health_check. cbn [fst].
    destruct (Dict.mem id' workers); [|exact Hget].
    destruct (String.eqb_spec id id') as [<-|Hne].
    + rewrite (RegistryFacts.alter_get_same _ _ _ Hget).
      destruct w as [u st]. unfold set_status. simpl in *. congruence.
    + now rewrite RegistryFacts.alter_get_other.
Qed.

(** X5: the last registration of an id wins: after it, and whatever
    heartbeats and registrations of other ids follow, the registry maps
    the id to the URL given then, with status [active]. *)
Theorem X5_last_registration_wins (before after : list request)
  (id url : string) :
  forallb (fun r => negb (registers id r)) after = true ->
  Dict.get (serve (before ++ Register id url :: after)) id =
    Some {| worker_url := url; status := "active" |}.
Proof.
  intros Hafter. rewrite serve_app. cbn [fold_left handle].
  assert (Hreg : Dict.get
                   (fst (handle_worker_registration (serve before) id url))
                   id = Some {| worker_url := url; status := "active" |})
    by apply set_get_same.
  revert Hreg.
  generalize (fst (handle_worker_registration (serve before) id url)).
  induction after as [|r after IH]; intros start Hget; simpl.
  - exact Hget.
  - simpl in Hafter. apply andb_prop in Hafter as [Hr Hafter].
    apply IH; [exact Hafter|].
    apply handle_get_kept; [reflexivity | | exact Hget].
    now destruct (registers id r).
Qed.

Lemma X5_last_registration_wins_witness :
  Dict.get (serve ([Register "w1" "http://old"]
                   ++ Register "w1" "http://new"
                   :: [Heartbeat "w1"; Register "w2" "http://b"]))%string
           "w1"
  = Some {| worker_url := "http://new"; status := "active" |}.
Proof.
  apply (@X5_last_registration_wins
           [Register "w1" "http://old"]%string
           [Heartbeat "w1"; Register "w2" "http://b"]%string
           "w1" "http://new").
  reflexivity.
Defined.

Lemma handle_mem workers r id :
  Dict.mem id (handle workers r) = Dict.mem id workers || registers id r.
Proof.
  rewrite !mem_keys, handle_keys.
  destruct r as [id' u|id']; cbn [note_id registers].
  - destruct (existsb (String.eqb id') (Dict.keys workers)) eqn:E.
    + destruct (String.eqb_spec id' id) as [->|Hne].
      * now rewrite E.
      * now rewrite orb_false_r.
    + rewrite existsb_app. simpl. rewrite orb_false_r.
      now rewrite (String.eqb_sym id id').
  - now rewrite orb_false_r.
Qed.

(** X6: a worker id is in the registry exactly when some request so far
    registered it: entries are never removed, and a heartbeat for an
    unregistered id creates none. *)
Theorem X6_registered_ids (requests : list request) (id : string) :
  Dict.mem id (serve requests) = existsb (registers id) requests.
Proof.
  unfold serve.
  assert (H : forall start,
             Dict.mem id (fold_left handle requests start) =
             Dict.mem id start || existsb (registers id) requests).
  { induction requests as [|r requests IH]; intros start; simpl.
    - now rewrite orb_false_r.
    - now rewrite IH, handle_mem, orb_assoc. }
  now rewrite H.
Qed.

End LifecycleFacts.

(* ===================================================================== *)
(** ** Further properties of the chunk planner *)

Module PlannerMore.
Import Planner.
Open Scope Z_scope.

(** X7: for [file_size >= 0] and [chunk_size > 0] the plan has
    [ceil(file_size / chunk_size)] chunks; the bytes it declares exceed the
    file by less than one chunk, and by nothing when [chunk_size] divides
    [file_size]; the plan is empty exactly for the empty file. *)
Theorem X7_plan_size (fs cs : Z) (fuel : nat) :
  0 <= fs -> 0 < cs -> (chunk_count fs cs < fuel)%nat ->
  exists chunks,
    _split_file fuel fs cs = Return chunks /\
    Z.of_nat (List.length chunks) = (fs + cs - 1) / cs /\
    fs <= total_length chunks < fs + cs /\
    (fs mod cs = 0 -> total_length chunks = fs) /\
    (chunks = [] <-> fs = 0).
Proof.
  intros Hfs Hcs Hfuel.
  exists (progression 0 cs (chunk_count fs cs)).
  destruct (PlannerFacts.chunk_count_bounds Hfs Hcs) as (Hup & Hlo & Hz).
  assert (Hq : 0 <= (fs + cs - 1) / cs) by (apply Z.div_pos; lia).
  assert (Htot : fs <= Z.of_nat (chunk_count fs cs) * cs < fs + cs).
  { split; [exact Hup|].
    destruct (Z.eq_dec fs 0) as [->|Hne].
    - rewrite (Hz eq_refl). lia.
    - specialize (Hlo ltac:(lia)). lia. }
  split; [now apply PlannerFacts.split_file_result|].
  rewrite PlannerFacts.progression_length, PlannerFacts.progression_total.
  split; [unfold chunk_count; now rewrite Z2Nat.id|].
  split; [exact Htot|].
  split.
  - intros Hmod.
    pose proof (Z.div_mod fs cs ltac:(lia)) as Hdm. rewrite Hmod in Hdm.
    rewrite Z.add_0_r in Hdm.
    assert (Hn : Z.of_nat (chunk_count fs cs) = fs / cs) by nia.
    rewrite Hn. lia.
  - split.
    + intros Hnil.
      pose proof (PlannerFacts.progression_length 0 cs (chunk_count fs cs))
        as Hlen.
      rewrite Hnil in Hlen. simpl in Hlen. rewrite <- Hlen in Htot. lia.
    + intros ->. now rewrite (Hz eq_refl).
Qed.

Lemma X7_plan_size_witness :
  exists chunks,
    _split_file 10 10 4 = Return chunks /\
    Z.of_nat (List.length chunks) = (10 + 4 - 1) / 4 /\
    10 <= total_length chunks < 10 + 4 /\
    (10 mod 4 = 0 -> total_length chunks = 10) /\
    (chunks = [] <-> 10 = 0).
Proof. apply (@X7_plan_size 10 4 10); [lia | lia | vm_compute; lia]. Defined.

End PlannerMore.

(* ===================================================================== *)
(** ** Further properties of the dispatch loop *)

Module DispatchMore.
Import Planner Registry Aggregator Dispatch DispatchLog.

Section Loop.
Variable post : string -> chunk_data -> outcome metrics.

Lemma dispatch_returns workers filepath : forall chunks i acc log out,
  snd (dispatch_loop post workers filepath i chunks acc log) = Return out ->
  exists new rs,
    fst (dispatch_loop post workers filepath i chunks acc log)
      = (log ++ new)%list /\
    out = (acc ++ rs)%list /\
    Forall2 (answered post) new rs /\
    List.length rs = List.length chunks.
Proof.
  induction chunks as [|chunk rest IH]; intros i acc log out Hout.
  - cbn [dispatch_loop] in *. unfold ret in *. cbn [fst snd] in *.
    injection Hout as <-. exists [], [].
    rewrite !app_nil_r. repeat split. constructor.
  - cbn [dispatch_loop] in *. unfold bindM, lift, send in *.
    destruct (py_mod i (List.length workers)) as [k| |];
      try discriminate Hout.
    destruct (index (Dict.keys workers) k) as [id| |];
      try discriminate Hout.
    destruct (lookup workers id) as [w| |]; try discriminate Hout.
    destruct (post (worker_url w ++ "/process")%string _) as [r| |] eqn:Hpost;
      try discriminate Hout.
    destruct (IH _ _ _ _ Hout) as (new & rs & Hlog & -> & Hans & Hlen).
    eexists (_ :: new), (r :: rs). repeat split.
    + rewrite Hlog, <- app_assoc. reflexivity.
    + now rewrite <- app_assoc.
    + constructor; [exact Hpost | exact Hans].
    + simpl. now rewrite Hlen.
Qed.

(** X8: when the dispatch loop returns, it returns one result per chunk,
    in chunk order: the [i]-th result is what the worker answered to the
    [i]-th request. *)
Theorem X8_results_in_chunk_order (workers : registry) (filepath : json)
  (chunks : list chunk) (results : list metrics) :
  let run := dispatch_loop post workers filepath 0 chunks [] [] in
  snd run = Return results ->
  Forall2 (answered post) (fst run) results /\
  List.length results = List.length chunks.
Proof.
  intros run Hret.
  destruct (dispatch_returns workers filepath chunks 0 [] [] Hret)
    as (new & rs & Hlog & -> & Hans & Hlen).
  fold run in Hlog. rewrite Hlog. cbn [app]. split; assumption.
Qed.

(** The loop up to the first worker call that raises. *)
Lemma dispatch_stops workers filepath after chunk s e :
  workers <> [] -> NoDup (Dict.keys workers) ->
  post (url s) (payload s) = Raise e ->
  forall before i acc log,
  (forall j c,
     nth_error before j = Some c ->
     exists s',
       request_at workers filepath (i + j) c = Some s' /\
       returns (post (url s') (payload s'))) ->
  request_at workers filepath (i + List.length before) chunk = Some s ->
  exists mid,
    dispatch_loop post workers filepath i (before ++ chunk :: after) acc log
      = ((log ++ mid ++ [s])%list, Raise e) /\
    List.length mid = List.length before.
Proof.
  intros Hne Hnd Hfail.
  induction before as [|c before IH]; intros i acc log Hbefore Hat;
    cbn [app].
  - destruct (@DispatchFacts.dispatch_step post workers filepath i chunk
                after acc log Hne Hnd) as (id & w & Hnth & ->).
    cbv zeta. cbn [List.length] in Hat. rewrite Nat.add_0_r in Hat.
    unfold request_at in Hat. rewrite Hnth in Hat. injection Hat as <-.
    rewrite Hfail. exists []. split; reflexivity.
  - destruct (@DispatchFacts.dispatch_step post workers filepath i c
                (before ++ chunk :: after) acc log Hne Hnd)
      as (id & w & Hnth & ->).
    cbv zeta.
    destruct (Hbefore 0%nat c eq_refl) as (s' & Hs' & [r Hr]).
    rewrite Nat.add_0_r in Hs'.
    unfold request_at in Hs'. rewrite Hnth in Hs'. injection Hs' as <-.
    rewrite Hr.
    destruct (IH (S i) (acc ++ [r])
                (log ++ [request_for filepath id w c])%list)
      as (mid & -> & Hlen).
    + intros j c' Hj. destruct (Hbefore (S j) c' Hj) as (s' & Hs' & Hret).
      exists s'. split; [|exact Hret].
      now replace (S i + j)%nat with (i + S j)%nat by lia.
    + cbn [List.length] in Hat.
      now replace (S i + List.length before)%nat
        with (i + S (List.length before))%nat by lia.
    + exists (request_for filepath id w c :: mid). split.
      * now rewrite <- app_assoc.
      * cbn [List.length]. now rewrite Hlen.
Qed.

(** X9: the first worker call that raises stops the loop with its
    exception: when the requests for the chunks [before] are answered and
    the request for the next chunk raises [e], the loop raises [e], that
    request is the last one sent, and no chunk after it is sent. *)
Theorem X9_abort_on_first_failure (workers : registry) (filepath : json)
  (before after : list chunk) (chunk : Planner.chunk) (s : sent)
  (e : string) :
  NoDup (Dict.keys workers) ->
  (forall j c,
     nth_error before j = Some c ->
     exists s',
       request_at workers filepath j c = Some s' /\
       returns (post (url s') (payload s'))) ->
  request_at workers filepath (List.length before) chunk = Some s ->
  post (url s) (payload s) = Raise e ->
  let run :=
    dispatch_loop post workers filepath 0 (before ++ chunk :: after) [] [] in
  snd run = Raise e /\
  List.length (fst run) = S (List.length before) /\
  nth_error (fst run) (List.length before) = Some s.
Proof.
  intros Hnd Hbefore Hat Hfail run.
  assert (Hne : workers <> []).
  { intros ->. unfold request_at in Hat. cbn [List.length] in Hat.
    destruct (List.length before mod 0)%nat; discriminate Hat. }
  destruct (@dispatch_stops workers filepath after chunk s e Hne Hnd Hfail
              before 0%nat [] [] Hbefore Hat) as (mid & Hrun & Hlen).
  unfold run. rewrite Hrun. cbn [fst snd app]. split; [reflexivity|].
  split.
  - rewrite length_app. cbn [List.length]. lia.
  - rewrite nth_error_app2 by lia. rewrite Hlen, Nat.sub_diag. reflexivity.
Qed.

End Loop.

Lemma two_workers_distinct : NoDup (Dict.keys two_workers).
Proof. repeat constructor; simpl; intuition discriminate. Qed.

(** *** Counting the turns of a round-robin *)

Lemma turn_step (N k M : nat) :
  (k < N)%nat ->
  ((S M + N - 1 - k) / N =
   (M + N - 1 - k) / N + (if (M mod N =? k) then 1 else 0))%nat.
Proof.
  intros Hk.
  assert (HN : N <> 0%nat) by lia.
  set (a := (M + N - 1 - k)%nat).
  replace (S M + N - 1 - k)%nat with (S a) by (unfold a; lia).
  pose proof (Nat.div_mod_eq a N) as Ha.
  pose proof (Nat.mod_upper_bound a N HN) as Hr.
  pose proof (Nat.div_mod_eq M N) as HM.
  pose proof (Nat.mod_upper_bound M N HN) as HrM.
  destruct (Nat.eq_dec (a mod N) (N - 1)) as [Hlast|Hmid].
  - assert (Hmod : (M mod N = k)%nat).
    { symmetry. apply (Nat.mod_unique M N (a / N) k); [exact Hk|].
      unfold a in *. lia. }
    rewrite Hmod, Nat.eqb_refl.
    symmetry. apply (Nat.div_unique (S a) N (a / N + 1) 0); lia.
  - destruct (Nat.eqb_spec (M mod N) k) as [Hmod|Hmod].
    + exfalso. apply Hmid.
      symmetry. apply (Nat.mod_unique a N (M / N) (N - 1)); [lia|].
      unfold a. lia.
    + rewrite Nat.add_0_r.
      symmetry. apply (Nat.div_unique (S a) N (a / N) (S (a mod N))); lia.
Qed.

Lemma turns_count (N k M : nat) :
  (k < N)%nat ->
  List.length (filter (fun j => (j mod N =? k)%nat) (seq 0 M))
  = ((M + N - 1 - k) / N)%nat.
Proof.
  intros Hk. induction M as [|M IH].
  - simpl. symmetry. apply Nat.div_small. lia.
  - rewrite seq_S, filter_app, length_app, IH, turn_step by exact Hk.
    cbn [Nat.add filter]. now destruct (M mod N =? k)%nat.
Qed.

Lemma load_by_position (f : nat -> string) (id : string) :
  forall (log : list sent) (o : nat),
  (forall j s, nth_error log j = Some s -> assigned s = f (o + j)%nat) ->
  load log id =
  List.length (filter (fun j => String.eqb (f j) id)
                      (seq o (List.length log))).
Proof.
  unfold load. induction log as [|s log IH]; intros o Hlog.
  - reflexivity.
  - cbn [filter List.length seq].
    rewrite (Hlog 0%nat s eq_refl), Nat.add_0_r.
    assert (Htl : forall j s', nth_error log j = Some s' ->
                               assigned s' = f (S o + j)%nat).
    { intros j s' Hj. rewrite (Hlog (S j) s' Hj). f_equal. lia. }
    destruct (String.eqb (f o) id); cbn [List.length];
      [f_equal|]; now apply IH.
Qed.

(** X10: the round-robin balances the load: when every worker call
    returns, the worker at position [k] of a registry of [N] workers
    receives [(M + N - 1 - k) / N] of the [M] chunks, which is the
    quotient [M / N] or one more. *)
Theorem X10_balanced_load
  (post : string -> chunk_data -> outcome metrics)
  (workers : registry) (filepath : json) (chunks : list chunk)
  (k : nat) (id : string) :
  workers <> [] -> NoDup (Dict.keys workers) ->
  (forall u b, returns (post u b)) ->
  nth_error (Dict.keys workers) k = Some id ->
  let N := List.length workers in
  let M := List.length chunks in
  let log := fst (dispatch_loop post workers filepath 0 chunks [] []) in
  load log id = ((M + N - 1 - k) / N)%nat /\
  (M / N <= load log id <= S (M / N))%nat.
Proof.
  intros Hne Hnd Hpost Hk N M log.
  assert (HkN : (k < N)%nat).
  { unfold N. rewrite <- (length_map fst workers).
    apply nth_error_Some. unfold Dict.keys in Hk. congruence. }
  destruct (@DispatchFacts.dispatch_loop_log post workers filepath Hne Hnd
              chunks 0%nat [] [])
    as (sent_now & Hlog & Hrr & Hret & Herr & Hfuel).
  cbn [app] in Hlog. fold log in Hlog.
  assert (Hlen : List.length log = M).
  { destruct (snd (dispatch_loop post workers filepath 0 chunks [] []))
      as [out|e|] eqn:E.
    - rewrite Hlog. now destruct (Hret out eq_refl).
    - destruct (Herr e eq_refl) as (s & _ & Hs).
      destruct (Hpost (url s) (payload s)) as [r Hr]. congruence.
    - destruct (Hfuel eq_refl) as (s & Hs).
      destruct (Hpost (url s) (payload s)) as [r Hr]. congruence. }
  set (f := fun j => match nth_error (Dict.keys workers) (j mod N) with
                     | Some x => x
                     | None => id
                     end).
  assert (Hload : load log id = ((M + N - 1 - k) / N)%nat).
  { rewrite (@load_by_position f id log 0%nat).
    - rewrite Hlen, <- (turns_count M HkN). f_equal.
      apply filter_ext. intros j. unfold f.
      assert (HjN : (j mod N < N)%nat) by (apply Nat.mod_upper_bound; lia).
      destruct (nth_error (Dict.keys workers) (j mod N)) as [x|] eqn:Ej.
      + destruct (String.eqb_spec x id) as [->|Hx];
          destruct (Nat.eqb_spec (j mod N) k) as [Hjk|Hjk]; try reflexivity.
        * exfalso. apply Hjk.
          apply (proj1 (NoDup_nth_error (Dict.keys workers)) Hnd).
          -- unfold Dict.keys. rewrite length_map. exact HjN.
          -- congruence.
        * exfalso. apply Hx. congruence.
      + exfalso. apply nth_error_None in Ej.
        unfold Dict.keys in Ej. rewrite length_map in Ej. fold N in Ej. lia.
    - intros j s Hj. rewrite Hlog in Hj.
      destruct (Hrr j s Hj) as (chunk & w & _ & Hw & _).
      cbn [Nat.add] in *. unfold f, Dict.keys. fold N in Hw.
      now rewrite nth_error_map, Hw. }
  split; [exact Hload|]. rewrite Hload.
  assert (HN : N <> 0%nat) by lia.
  split.
  - apply Nat.Div0.div_le_mono. lia.
  - transitivity ((M + N) / N)%nat.
    + apply Nat.Div0.div_le_mono. lia.
    + replace (M + N)%nat with (M + 1 * N)%nat by lia.
      rewrite Nat.div_add by exact HN. lia.
Qed.

Lemma X10_balanced_load_witness :
  load (fst (dispatch_loop steady_worker two_workers (JStr "app.log") 0
               three_chunks [] [])) "w1"
  = ((3 + 2 - 1 - 0) / 2)%nat.
Proof.
  apply (@X10_balanced_load steady_worker two_workers (JStr "app.log")
           three_chunks 0 "w1").
  - discriminate.
  - exact two_workers_distinct.
  - intros u b. now exists (sample 100 5 0).
  - reflexivity.
Defined.

Lemma X8_results_in_chunk_order_witness :
  Forall2 (answered steady_worker)
    (fst (dispatch_loop steady_worker two_workers (JStr "app.log") 0
            three_chunks [] []))
    [sample 100 5 0; sample 100 5 0; sample 100 5 0] /\
  List.length [sample 100 5 0; sample 100 5 0; sample 100 5 0]
    = List.length three_chunks.
Proof.
  apply (@X8_results_in_chunk_order steady_worker two_workers
           (JStr "app.log") three_chunks).
  reflexivity.
Defined.

Lemma X9_abort_on_first_failure_witness :
  NoDup (Dict.keys two_workers) /\
  snd (dispatch_loop fails_at_10 two_workers (JStr "app.log") 0
         three_chunks [] []) = Raise "ClientError" /\
  List.length (fst (dispatch_loop fails_at_10 two_workers (JStr "app.log") 0
                      three_chunks [] [])) = 2%nat.
Proof.
  split; [exact two_workers_distinct|].
  destruct (@X9_abort_on_first_failure fails_at_10 two_workers
              (JStr "app.log") [(0, 10)%Z] [(20, 10)%Z] (10, 10)%Z
              (request_for (JStr "app.log") "w2"
                 {| worker_url := "http://localhost:8002";
                    status := "active" |} (10, 10)%Z)
              "ClientError" two_workers_distinct)
    as (Hraise & Hlen & _).
  - intros [|j] c Hj; [|destruct j; discriminate Hj].
    injection Hj as <-. eexists. split; [reflexivity|].
    now exists (sample 100 5 0).
  - reflexivity.
  - reflexivity.
  - split; [exact Hraise | exact Hlen].
Defined.

End DispatchMore.

(* ===================================================================== *)
(** ** Further properties of the aggregation *)

Module AggregatorMore.
Import PyNum Aggregator.
Open Scope Z_scope.

Lemma Zsum_perm (l l' : list Z) : Permutation l l' -> Zsum l = Zsum l'.
Proof.
  unfold Zsum. induction 1; cbn [fold_right]; lia.
Qed.

(** The average depends on the order of the results: float addition is
    not associative. *)
Example average_depends_on_order :
  Permutation ascending descending /\
  aggregate_results ascending
  = Return {| avg_response_time :=
                PFloat (S754_finite false 7205759403792795 (-55));
              requests_per_second := 3;
              error_rate := PFloat fzero;
              malformed_lines := 0 |} /\
  aggregate_results descending
  = Return {| avg_response_time :=
                PFloat (S754_finite false 7205759403792793 (-55));
              requests_per_second := 3;
              error_rate := PFloat fzero;
              malformed_lines := 0 |}.
Proof.
  split; [apply Permutation_rev|]. split; vm_compute; reflexivity.
Qed.

(** X11: the counts of the aggregate do not depend on the order of the
    chunk results: two aggregations of the same results in different
    orders return the same [requests_per_second], [malformed_lines] and
    [error_rate]. *)
Theorem X11_counts_independent_of_order
  (results results' : list metrics) (agg agg' : metrics) :
  Permutation results results' ->
  aggregate_results results = Return agg ->
  aggregate_results results' = Return agg' ->
  requests_per_second agg = requests_per_second agg' /\
  malformed_lines agg = malformed_lines agg' /\
  error_rate agg = error_rate agg'.
Proof.
  intros Hperm H H'.
  apply AggregatorFacts.aggregate_fields in H as (_ & _ & _ & -> & -> & ->).
  apply AggregatorFacts.aggregate_fields in H'
    as (_ & _ & _ & -> & -> & ->).
  repeat split; apply Zsum_perm; now apply Permutation_map.
Qed.

Lemma X11_counts_independent_of_order_witness :
  Permutation ascending descending /\
  requests_per_second
    {| avg_response_time :=
         PFloat (S754_finite false 7205759403792795 (-55));
       requests_per_second := 3;
       error_rate := PFloat fzero;
       malformed_lines := 0 |}
  = requests_per_second
      {| avg_response_time :=
           PFloat (S754_finite false 7205759403792793 (-55));
         requests_per_second := 3;
         error_rate := PFloat fzero;
         malformed_lines := 0 |}.
Proof.
  assert (Hperm : Permutation ascending descending)
    by apply Permutation_rev.
  split; [exact Hperm|].
  apply (@X11_counts_independent_of_order ascending descending _ _ Hperm).
  - vm_compute. reflexivity.
  - vm_compute. reflexivity.
Defined.

End AggregatorMore.

(* ===================================================================== *)
(** ** Further properties of the worker's scan *)

Module WorkerMore.
Import PyNum Aggregator Worker WorkerState.
Open Scope Z_scope.

Lemma filter_split A (f : A -> bool) (l : list A) :
  (List.length (filter f l) + List.length (filter (fun x => negb (f x)) l)
   = List.length l)%nat.
Proof.
  induction l as [|a l IH]; [reflexivity|].
  cbn [filter]. destruct (f a); cbn [negb List.length]; lia.
Qed.

Section WithUnicode.
Variable db : unicode_db.

Lemma digit_value_range c : 0 <= digit_value db c <= 9.
Proof.
  unfold digit_value, decimal. destruct (c <? 128)%N.
  - destruct ((48 <=? c) && (c <=? 57))%N eqn:E; [|lia].
    apply andb_prop in E as [H1 H2]. apply N.leb_le in H1, H2. lia.
  - destruct (uni_decimal db c) as [d|]; cbn [option_map]; [|lia].
    destruct d; cbn; lia.
Qed.

Lemma decimal_value_nonneg d : 0 <= decimal_value db d.
Proof.
  unfold decimal_value.
  assert (H : forall acc, 0 <= acc ->
            0 <= fold_left (fun acc c => 10 * acc + digit_value db c) d acc).
  { induction d as [|c d IH]; intros acc Hacc; cbn [fold_left];
      [exact Hacc|].
    apply IH. pose proof (digit_value_range c). lia. }
  apply H. lia.
Qed.

Lemma re_match_groups line groups :
  re_match db log_pattern line = Some groups ->
  exists t1 t2 t3 d rest,
    request_shape db line t1 t2 t3 d rest /\
    groups = [(t1 ++ L " " ++ t2)%list; t3; d].
Proof.
  unfold re_match.
  destruct (parses db log_pattern line) as [|[[c g] r] tl] eqn:E;
    [discriminate|].
  intros [= <-].
  assert (Hin : In (c, g, r) (parses db log_pattern line))
    by (rewrite E; now left).
  apply WorkerFacts.parses_shape in Hin as (t1 & t2 & t3 & d & Hshape & Hg).
  eauto 8.
Qed.

Lemma shape_length line t1 t2 t3 d rest :
  request_shape db line t1 t2 t3 d rest ->
  (List.length d <= List.length line)%nat.
Proof. intros (_ & _ & _ & _ & ->). rewrite !length_app. lia. Qed.

(** A line counts as one request, adding a non-negative time, or as one
    malformed line, unless its number is too long for [int]. *)
Lemma process_line_cases st line :
  (exists st',
     process_line db st line = Return st' /\
     ((total_requests st' = total_requests st + 1 /\
       malformed st' = malformed st /\
       total_time st <= total_time st' /\
       matched db line = true) \/
      (total_requests st' = total_requests st /\
       malformed st' = malformed st + 1 /\
       total_time st' = total_time st /\
       matched db line = false))) \/
  (process_line db st line = Raise "ValueError" /\
   (int_max_str_digits < List.length line)%nat).
Proof.
  unfold process_line, matched.
  destruct (re_match db log_pattern line) as [groups|] eqn:E.
  - apply re_match_groups in E as (t1 & t2 & t3 & d & rest & Hshape & ->).
    unfold int.
    destruct (Nat.ltb_spec int_max_str_digits (List.length d)) as [Hl|Hs].
    + right. split; [reflexivity|]. pose proof (shape_length Hshape). lia.
    + left. eexists. split; [reflexivity|]. left. cbn.
      pose proof (decimal_value_nonneg d). repeat split; lia.
  - left. eexists. split; [reflexivity|]. right. cbn. repeat split; lia.
Qed.

Lemma process_lines_cases lines : forall st,
  (exists st',
     process_lines db st lines = Return st' /\
     total_requests st'
     = total_requests st
       + Z.of_nat (List.length (filter (matched db) lines)) /\
     malformed st'
     = malformed st
       + Z.of_nat (List.length
                     (filter (fun l => negb (matched db l)) lines)) /\
     total_time st <= total_time st' /\
     (consistent st -> consistent st')) \/
  (process_lines db st lines = Raise "ValueError" /\
   Exists (fun line => (int_max_str_digits < List.length line)%nat) lines).
Proof.
  induction lines as [|line lines IH]; intros st.
  - left. exists st. cbn [process_lines filter List.length].
    split; [reflexivity|]. repeat (split; [lia|]). auto.
  - cbn [process_lines filter].
    destruct (process_line_cases st line) as [(st1 & -> & Hcase)|[-> Hlong]].
    2:{ right. split; [reflexivity|]. now apply Exists_cons_hd. }
    assert (Hc1 : consistent st -> consistent st1).
    { unfold consistent.
      destruct Hcase as [(E1 & E2 & E3 & _)|(E1 & E2 & E3 & _)];
        rewrite E1, E2; intros (H1 & H2 & H3 & H4);
        repeat split; try lia. }
    destruct (IH st1) as [(st' & -> & Hreq & Hmal & Htime & Hcons)|[-> Hlong]].
    2:{ right. split; [reflexivity|]. now apply Exists_cons_tl. }
    left. exists st'. split; [reflexivity|].
    destruct Hcase as [(E1 & E2 & E3 & ->)|(E1 & E2 & E3 & ->)];
      cbn [negb List.length]; rewrite ?Nat2Z.inj_succ;
      repeat (split; [lia|]); auto.
Qed.

Lemma short_lines_not_long lines :
  short_lines lines ->
  ~ Exists (fun line => (int_max_str_digits < List.length line)%nat) lines.
Proof.
  intros Hshort Hlong. apply Exists_exists in Hlong as (line & Hin & Hlen).
  unfold short_lines in Hshort. rewrite Forall_forall in Hshort.
  specialize (Hshort line Hin). lia.
Qed.

(** X13: the scan counts every line exactly once, as a request or as
    malformed: when it returns, the two counters together have grown by the
    number of lines and no counter has decreased.  It fails only with
    ValueError, and only when a line is longer than the 4300 digits [int]
    converts; when no line is, it returns. *)
Theorem X13_every_line_counted_once (st : counters) (lines : list text) :
  (forall st',
     process_lines db st lines = Return st' ->
     total_requests st' + malformed st' =
       total_requests st + malformed st + Z.of_nat (List.length lines) /\
     total_requests st <= total_requests st' /\
     malformed st <= malformed st' /\
     total_time st <= total_time st') /\
  (forall e,
     process_lines db st lines = Raise e ->
     e = "ValueError"%string /\
     Exists (fun line => (int_max_str_digits < List.length line)%nat)
            lines) /\
  process_lines db st lines <> OutOfFuel /\
  (short_lines lines -> returns (process_lines db st lines)).
Proof.
  pose proof (filter_split (matched db) lines) as Hsplit.
  destruct (process_lines_cases lines st)
    as [(st1 & E & Hreq & Hmal & Htime & _)|[E Hlong]]; rewrite E.
  - split; [|split; [|split]]; try discriminate.
    + intros st' [= <-]. repeat split; lia.
    + intros _. now exists st1.
  - split; [|split; [|split]]; try discriminate.
    + intros e [= <-]. now split.
    + intros Hshort. exfalso. exact (short_lines_not_long Hshort Hlong).
Qed.

Lemma initial_consistent : consistent initial.
Proof. unfold consistent, initial. cbn. repeat split; lia. Qed.

(** The metrics built from the counters. *)
Lemma to_metrics_cases st :
  (forall m,
     to_metrics st = Return m ->
     requests_per_second m = total_requests st /\
     malformed_lines m = malformed st /\
     error_rate m = PFloat fzero /\
     (total_requests st <= 0 -> avg_response_time m = PInt 0) /\
     (0 < total_requests st -> is_int (avg_response_time m) = false)) /\
  returns_or_overflows (to_metrics st).
Proof.
  unfold to_metrics.
  destruct (Z.ltb_spec 0 (total_requests st)) as [Hpos|Hle].
  - pose proof (@PyNumFacts.py_truediv_overflows (PInt (total_time st))
                  (total_requests st) Hpos) as Hdiv.
    cbn [py_truediv] in *.
    destruct (int_truediv (total_time st) (total_requests st)) as [f| |];
      cbn [bind returns_or_overflows] in *; split; try discriminate; auto.
    intros m [= <-]. cbn. repeat split; try reflexivity. lia.
  - cbn [bind]. split; [|exact I].
    intros m [= <-]. cbn. repeat split; try reflexivity. lia.
Qed.


End WithUnicode.

Example scan_sample_chunk :
  process_lines ascii_only initial sample_chunk
  = Return {| total_time := 200; total_requests := 2; malformed := 1 |}.
Proof. vm_compute. reflexivity. Qed.

(** A number with 4301 digits ends the scan. *)
Example long_number_rejected (db : unicode_db) (st : counters) :
  process_line db st long_number_line = Raise "ValueError".
Proof.
  assert (Hshape : request_shape db long_number_line
                     (L "a") (L "b") (L "c") (repeat 49%N 4301) []).
  { unfold request_shape, long_number_line.
    repeat (split; [apply WorkerFacts.token_intro;
                    [discriminate | reflexivity]|]).
    split; [|now rewrite app_nil_r].
    split; [discriminate|]. apply Forall_forall.
    intros c Hc. apply repeat_spec in Hc. now subst c. }
  rewrite (WorkerFacts.process_line_request st Hshape).
  rewrite WorkerFacts.int_long; [reflexivity|].
  rewrite repeat_length. unfold int_max_str_digits. lia.
Qed.

Lemma X13_every_line_counted_once_witness :
  short_lines sample_chunk /\
  returns (process_lines ascii_only initial sample_chunk).
Proof.
  assert (Hshort : short_lines sample_chunk).
  { unfold short_lines, sample_chunk.
    repeat (apply Forall_cons; [apply Nat.leb_le; vm_compute; reflexivity|]).
    apply Forall_nil. }
  split; [exact Hshort|].
  exact (proj2 (proj2 (proj2
           (@X13_every_line_counted_once ascii_only initial sample_chunk)))
           Hshort).
Defined.


End WorkerMore.

(* ===================================================================== *)
(** ** Workers and aggregation together *)

Module PipelineFacts.
Import PyNum Aggregator Worker WorkerState.
Open Scope Z_scope.

Section WithUnicode.
Variable db : unicode_db.

Lemma scanned_counts chunks results :
  scanned db chunks results ->
  Zsum (map requests_per_second results)
  = Z.of_nat (List.length (filter (matched db) (concat chunks))) /\
  Zsum (map malformed_lines results)
  = Z.of_nat (List.length
                (filter (fun l => negb (matched db l)) (concat chunks))).
Proof.
  induction 1 as [|lines r chunks results Hscan _ IH].
  - split; reflexivity.
  - destruct (WorkerMore.process_lines_cases db lines initial)
      as [(st & E & Hreq & Hmal & _)|[E _]];
      rewrite E in Hscan; cbn [bind] in Hscan; [|discriminate].
    destruct (WorkerMore.to_metrics_cases st) as [Hm _].
    destruct (Hm r Hscan) as (E1 & E2 & _).
    cbn [initial total_requests malformed] in Hreq, Hmal.
    destruct IH as [IH1 IH2].
    cbn [concat map]. rewrite !filter_app, !length_app, !Nat2Z.inj_add.
    unfold Zsum in *. cbn [fold_right]. lia.
Qed.

(** X15: worker and coordinator together account for every line: when
    each chunk result is what a worker returns for the lines of that chunk
    and the aggregation returns, the aggregate's [requests_per_second] is
    the number of lines of all chunks that match the pattern, its
    [malformed_lines] the number of those that do not, and together they
    count every line once. *)
Theorem X15_aggregate_counts_all_lines
  (chunks : list (list text)) (results : list metrics) (agg : metrics) :
  scanned db chunks results ->
  aggregate_results results = Return agg ->
  requests_per_second agg
  = Z.of_nat (List.length (filter (matched db) (concat chunks))) /\
  malformed_lines agg
  = Z.of_nat (List.length
                (filter (fun l => negb (matched db l)) (concat chunks))) /\
  requests_per_second agg + malformed_lines agg
  = Z.of_nat (List.length (concat chunks)).
Proof.
  intros Hscan Hagg.
  apply AggregatorFacts.aggregate_fields in Hagg
    as (_ & _ & _ & -> & -> & _).
  destruct (scanned_counts Hscan) as [-> ->].
  pose proof (WorkerMore.filter_split (matched db) (concat chunks)).
  repeat split; lia.
Qed.

End WithUnicode.

Lemma X15_aggregate_counts_all_lines_witness :
  scanned ascii_only [sample_chunk; [L "not a request"]]
    [chunk_result (PFloat f_100) 2 1; chunk_result (PInt 0) 0 1] /\
  requests_per_second
    (chunk_result (PFloat f_100) 2 2)
  + malformed_lines (chunk_result (PFloat f_100) 2 2)
  = Z.of_nat (List.length (concat [sample_chunk; [L "not a request"]])).
Proof.
  assert (Hscan : scanned ascii_only [sample_chunk; [L "not a request"]]
            [chunk_result (PFloat f_100) 2 1; chunk_result (PInt 0) 0 1]).
  { unfold scanned.
    repeat (apply Forall2_cons; [vm_compute; reflexivity|]).
    apply Forall2_nil. }
  split; [exact Hscan|].
  apply (@X15_aggregate_counts_all_lines ascii_only _ _
           (chunk_result (PFloat f_100) 2 2) Hscan).
  vm_compute. reflexivity.
Defined.

End PipelineFacts.

(* ===================================================================== *)
(** ** Properties of the worker's [/process] handler *)

Module WorkerServerFacts.
Import Planner Registry Aggregator Dispatch Worker WorkerServer.

Example worker_handles_request :
  handle_process_chunk ascii_only
    (fun _ _ _ => Return WorkerState.sample_chunk)
    (Some (JDict [("filepath", JStr "app.log"); ("start", JInt 0);
                  ("size", JInt 100)]%string))
  = to_metrics {| total_time := 200; total_requests := 2; malformed := 1 |}.
Proof. vm_compute. reflexivity. Qed.

(** X16: a request to the worker must carry [filepath], [start] and
    [size]: when one of them cannot be taken from the body, the handler
    fails with KeyError (or TypeError when the body is not an object)
    whatever the file system holds, so before any file is opened. *)
Theorem X16_worker_request_needs_all_keys (data : json) (key : string) :
  In key ["filepath"; "start"; "size"]%string ->
  (forall v, getitem data key <> Return v) ->
  exists e,
    (e = "KeyError" \/ e = "TypeError")%string /\
    forall db read, handle_process_chunk db read (Some data) = Raise e.
Proof.
  intros Hkey Hmissing. unfold handle_process_chunk. cbn [request_json bind].
  destruct data as [| b | z | str | l | d];
    try (exists "TypeError"%string; split; [now right | reflexivity]).
  exists "KeyError"%string. split; [now left|]. intros db read.
  unfold getitem in *.
  destruct (Dict.get d "filepath") as [fp|] eqn:Efp; [|reflexivity].
  cbn [bind].
  destruct (Dict.get d "start") as [st|] eqn:Est; [|reflexivity].
  cbn [bind].
  destruct (Dict.get d "size") as [sz|] eqn:Esz; [|reflexivity].
  exfalso. simpl in Hkey.
  destruct Hkey as [<-|[<-|[<-|[]]]].
  - apply (Hmissing fp). now rewrite Efp.
  - apply (Hmissing st). now rewrite Est.
  - apply (Hmissing sz). now rewrite Esz.
Qed.

Lemma X16_worker_request_needs_all_keys_witness :
  exists e,
    (e = "KeyError" \/ e = "TypeError")%string /\
    forall db read,
      handle_process_chunk db read
        (Some (JDict [("filepath", JStr "app.log"); ("start", JInt 0)]%string))
      = Raise e.
Proof.
  apply (@X16_worker_request_needs_all_keys
           (JDict [("filepath", JStr "app.log"); ("start", JInt 0)]%string)
           "size").
  - simpl. auto.
  - intros v. discriminate.
Defined.

Section Loop.
Variable post : string -> chunk_data -> outcome metrics.

(** Every request the loop logs is for one of its chunks, of the file it
    was given. *)
Lemma dispatch_payloads workers filepath : forall chunks i acc log s,
  In s (fst (dispatch_loop post workers filepath i chunks acc log)) ->
  In s log \/
  exists chunk,
    In chunk chunks /\
    payload s = {| cd_filepath := filepath;
                   cd_start := fst chunk;
                   cd_size := snd chunk |}.
Proof.
  induction chunks as [|chunk rest IH]; intros i acc log s Hin.
  - now left.
  - cbn [dispatch_loop] in Hin. unfold bindM, lift, send in Hin.
    destruct (py_mod i (List.length workers)) as [k| |]; try (now left).
    destruct (index (Dict.keys workers) k) as [id| |]; try (now left).
    destruct (lookup workers id) as [w| |]; try (now left).
    assert (Hhere : forall l : list sent,
              In s (l ++ [{| assigned := id;
                             url := (worker_url w ++ "/process")%string;
                             payload := {| cd_filepath := filepath;
                                           cd_start := fst chunk;
                                           cd_size := snd chunk |} |}]) ->
              In s l \/
              payload s = {| cd_filepath := filepath;
                             cd_start := fst chunk;
                             cd_size := snd chunk |}).
    { intros l Hl. apply in_app_iff in Hl as [Hl|[<-|[]]]; auto. }
    destruct (post (worker_url w ++ "/process")%string _) as [r| |].
    + apply IH in Hin as [Hin|(c & Hc & Hp)].
      * apply Hhere in Hin as [Hin|Hp]; [now left|].
        right. exists chunk. split; [now left | exact Hp].
      * right. exists c. split; [now right | exact Hp].
    + cbn [fst] in Hin. apply Hhere in Hin as [Hin|Hp]; [now left|].
      right. exists chunk. split; [now left | exact Hp].
    + cbn [fst] in Hin. apply Hhere in Hin as [Hin|Hp]; [now left|].
      right. exists chunk. split; [now left | exact Hp].
Qed.

(** X17: every request the coordinator's loop sends fits the worker's
    handler: decoded by the worker it has the three keys, and the handler
    answers with [process_chunk] of the coordinator's file and of the
    start and size of one of the chunks being dispatched. *)
Theorem X17_requests_fit_the_worker (db : unicode_db)
  (read : json -> json -> json -> outcome (list text))
  (readlines : string -> Z -> Z -> outcome (list text))
  (workers : registry) (path : string) (chunks : list chunk) (s : sent) :
  (forall a b, read (JStr path) (JInt a) (JInt b) = readlines path a b) ->
  In s (fst (dispatch_loop post workers (JStr path) 0 chunks [] [])) ->
  exists chunk,
    In chunk chunks /\
    handle_process_chunk db read (Some (to_json (payload s)))
    = process_chunk db readlines path (fst chunk) (snd chunk).
Proof.
  intros Hread Hin.
  apply dispatch_payloads in Hin as [[]|(chunk & Hchunk & Hp)].
  exists chunk. split; [exact Hchunk|].
  rewrite Hp. unfold handle_process_chunk, to_json, process_chunk_of.
  cbn [request_json bind getitem Dict.get cd_filepath cd_start cd_size].
  cbn. rewrite Hread. reflexivity.
Qed.

End Loop.

Lemma X17_requests_fit_the_worker_witness :
  exists chunk,
    In chunk DispatchLog.three_chunks /\
    handle_process_chunk ascii_only
      (fun _ _ _ => Return WorkerState.sample_chunk)
      (Some (to_json (payload (request_for (JStr "app.log") "w2"
                                 {| worker_url := "http://localhost:8002";
                                    status := "active" |} (10, 10)%Z))))
    = process_chunk ascii_only
        (fun _ _ _ => Return WorkerState.sample_chunk)
        "app.log" (fst chunk) (snd chunk).
Proof.
  apply (@X17_requests_fit_the_worker steady_worker ascii_only
           (fun _ _ _ => Return WorkerState.sample_chunk)
           (fun _ _ _ => Return WorkerState.sample_chunk)
           two_workers "app.log" DispatchLog.three_chunks).
  - reflexivity.
  - simpl. auto.
Defined.

End WorkerServerFacts.

(* ===================================================================== *)
(** ** Properties of the analyzer *)

Module AnalyzerFacts.
Import PyNum Aggregator Analyzer.
Open Scope Z_scope.

Example feed_sample :
  feed sample_updates
  = ({| error_rate_per_minute := PInt 0;
        average_response_time := PInt 120;
        request_count_per_second := PInt 12;
        resource_usage := [] |}, Return tt).
Proof. vm_compute. reflexivity. Qed.

(** A total that is too large for a float stops an update half-way. *)
Example update_stops_half_way :
  update_metrics init
    [("error_rate_per_minute", PInt 2);
     ("average_response_time", PFloat f_0_1);
     ("request_count_per_second", PInt (10 ^ 400))]%string
  = ({| error_rate_per_minute := PInt 2;
        average_response_time := PFloat f_0_1;
        request_count_per_second := PInt (10 ^ 400);
        resource_usage := [] |}, Return tt) /\
  fst (update_metrics
         {| error_rate_per_minute := PInt 0;
            average_response_time := PInt (10 ^ 400);
            request_count_per_second := PInt 0;
            resource_usage := [] |}
         [("error_rate_per_minute", PInt 2);
          ("average_response_time", PFloat f_0_1);
          ("request_count_per_second", PInt 1)]%string)
  = {| error_rate_per_minute := PInt 2;
       average_response_time := PInt (10 ^ 400);
       request_count_per_second := PInt 0;
       resource_usage := [] |}.
Proof. split; vm_compute; reflexivity. Qed.






Lemma get_filter_tracked (d : Dict.dict num) key :
  tracked key = true ->
  Dict.get (filter (fun kv => tracked (fst kv)) d) key = Dict.get d key.
Proof.
  intros Hkey. induction d as [|[k v] d IH]; [reflexivity|].
  cbn [filter fst]. destruct (tracked k) eqn:Ek.
  - cbn [Dict.get]. now rewrite IH.
  - cbn [Dict.get]. destruct (String.eqb_spec k key) as [->|Hne].
    + congruence.
    + exact IH.
Qed.

(** X19: an update reads only the three tracked keys: removing every
    other key from the new data leaves the result of the update the
    same. *)
Theorem X19_untracked_keys_ignored (m : analyzer_metrics)
  (new_data : Dict.dict num) :
  update_metrics m (filter (fun kv => tracked (fst kv)) new_data)
  = update_metrics m new_data.
Proof.
  unfold update_metrics, get_or_zero.
  now rewrite !get_filter_tracked by reflexivity.
Qed.

End AnalyzerFacts.

(* ===================================================================== *)
(** ** Line ends *)

Module LineEndFacts.
Import Worker WorkerState.

Section WithUnicode.
Variable db : unicode_db.

Example with_and_without_newline :
  process_line db initial (sample_line ++ [newline])
  = process_line db initial sample_line.
Proof. vm_compute. reflexivity. Qed.

(** A request line stays one, with the same number, when text is added
    after it. *)
Lemma shape_extend line t1 t2 t3 d rest tail :
  request_shape db line t1 t2 t3 d rest ->
  request_shape db (line ++ tail) t1 t2 t3 d (rest ++ tail).
Proof.
  intros (H1 & H2 & H3 & Hd & ->). repeat (split; [assumption|]).
  now repeat rewrite <- app_assoc.
Qed.

(** A line feed at the very end is not part of what the pattern matched. *)
Lemma shape_without_newline line t1 t2 t3 d rest :
  request_shape db (line ++ [newline]) t1 t2 t3 d rest ->
  exists rest', request_shape db line t1 t2 t3 d rest'.
Proof.
  intros (H1 & H2 & H3 & Hd & E).
  induction rest as [|a rest' _] using rev_ind.
  - exfalso.
    change (L "ms" ++ [])%list with ([109%N] ++ [115%N])%list in E.
    rewrite !app_assoc in E. apply app_inj_tail in E as [_ E].
    discriminate E.
  - exists rest'. repeat (split; [assumption|]).
    rewrite !app_assoc in E. apply app_inj_tail in E as [E _].
    rewrite E. now repeat rewrite <- app_assoc.
Qed.

(** X21: the line feed that ends a line read from the file does not
    change how the line is counted, nor the time it contributes: a line
    is scanned the same with and without it. *)
Theorem X21_trailing_newline_ignored (st : counters) (line : text) :
  process_line db st (line ++ [newline]) = process_line db st line.
Proof.
  unfold process_line.
  destruct (re_match db log_pattern line) as [groups|] eqn:E.
  - apply WorkerMore.re_match_groups in E
      as (t1 & t2 & t3 & d & rest & Hshape & ->).
    now rewrite (WorkerFacts.re_match_shape
                   (shape_extend [newline] Hshape)).
  - destruct (re_match db log_pattern (line ++ [newline])) as [groups|] eqn:E';
      [|reflexivity].
    apply WorkerMore.re_match_groups in E'
      as (t1 & t2 & t3 & d & rest & Hshape & _).
    apply shape_without_newline in Hshape as [rest' Hshape].
    rewrite (WorkerFacts.re_match_shape Hshape) in E. discriminate E.
Qed.

End WithUnicode.

End LineEndFacts.
